(** * effect-react-query: the translation and runtime-lifecycle layer

    A shallow embedding of [src/options.ts] and [src/runtime.tsx].  The
    adapter sits between two external collaborators, the effect runtime
    and the query-cache layer; both are kept abstract (type classes
    [EffectLib] and [QueryLib]) so that what is proved of the adapter
    holds for every implementation of them.  Where a property is about
    what a collaborator itself does (the memo table, the bridge's
    reaction to an abort signal, the effect hooks of the rendering
    layer), that behaviour is modelled from its contract and marked as
    such.  JavaScript values are untyped at run time, so data, errors
    and thrown values all live in one type [JsVal]. *)

From Stdlib Require Import ZArith String List Bool Lia.
From stdpp Require Import base option gmap strings.
Import ListNotations.
Local Open Scope string_scope.
Local Open Scope list_scope.

(** ** JavaScript values, causes and exits *)

(** A run-time value.  [VCause] is a value for which [Cause.isCause]
    holds, [VPromise] one that is [instanceof Promise], [VError] an
    [Error] object and [VParseError] the [ParseError] thrown by the
    synchronous schema functions.  A promise object is read, like every
    promise here, at its eventual settlement: [settlement] is what the
    object with identity [id] settles to. *)
#[warnings="-register-all"]
Inductive JsVal : Type :=
| VUndefined
| VNull
| VBool (b : bool)
| VNum (n : Z)
| VStr (s : string)
| VArr (items : list JsVal)
| VObj (fields : list (string * JsVal))
| VError (message : string)
| VParseError (issue : string)
| VPromise (id : nat) (settlement : Settlement)
| VCause (cause : Cause)
with Settlement : Type :=
| Fulfilled (value : JsVal)
| RejectedWith (reason : JsVal)
| NeverSettled
with Cause : Type :=
| CauseEmpty
| CauseFail (error : JsVal)
| CauseDie (defect : JsVal)
| CauseInterrupt (fiberId : nat)
| CauseSequential (left right : Cause)
| CauseParallel (left right : Cause).

(** The tagged outcome of running an effect to completion. *)
Inductive Exit : Type :=
| Success (value : JsVal)
| Failure (cause : Cause).

(** [Either.right] / [Either.left]. *)
Inductive Either (R L : Type) : Type :=
| Right (right : R)
| Left (left : L).
Arguments Right {R L} right.
Arguments Left {R L} left.

(** The completion of a synchronous call: it returns or it throws. *)
Inductive Completion (T : Type) : Type :=
| Normal (value : T)
| Throw (thrown : JsVal).
Arguments Normal {T} value.
Arguments Throw {T} thrown.

(** A promise, read at its eventual settlement; [Pending] is a promise
    that never settles. *)
Inductive Promise (T : Type) : Type :=
| Resolved (value : T)
| Rejected (reason : JsVal)
| Pending.
Arguments Resolved {T} value.
Arguments Rejected {T} reason.
Arguments Pending {T}.

Module Completion.

(** Sequencing of calls: an exception thrown by the first skips the rest. *)
Definition bind {A B : Type} (m : Completion A) (k : A -> Completion B) : Completion B :=
  match m with
  | Normal v => k v
  | Throw e => Throw e
  end.

End Completion.

Notation "'let*' x ':=' m 'in' k" := (Completion.bind m (fun x => k))
  (at level 10, x name, m at level 100, k at level 200).

Module Promise.

(** Resolving a promise with [value], as [Promise.resolve(value)] and
    the resolve function of every promise do: a value that is itself a
    promise is adopted, the new promise settling as that one does; any
    other value fulfils the new promise.  No object of [JsVal] other
    than a promise has a [then] method. *)
Fixpoint resolve (value : JsVal) : Promise JsVal :=
  match value with
  | VPromise _ (Fulfilled v) => resolve v
  | VPromise _ (RejectedWith e) => Rejected e
  | VPromise _ NeverSettled => Pending
  | _ => Resolved value
  end.

(** [p.then(onFulfilled)]: the callback runs on the resolved value; the
    new promise is resolved with what it returns, adopting a returned
    promise, and rejected with what it throws.  A rejection of [p]
    passes through. *)
Definition then_ {A : Type} (p : Promise A) (onFulfilled : A -> Completion JsVal) : Promise JsVal :=
  match p with
  | Resolved v =>
      match onFulfilled v with
      | Normal r => resolve r
      | Throw e => Rejected e
      end
  | Rejected e => Rejected e
  | Pending => Pending
  end.

End Promise.

Module Exit.

(** [Exit.match(exit, { onSuccess, onFailure })]. *)
Definition match_ {T : Type} (onSuccess : JsVal -> T) (onFailure : Cause -> T) (exit : Exit) : T :=
  match exit with
  | Success data => onSuccess data
  | Failure cause => onFailure cause
  end.

End Exit.

Module Cause.

(** [Cause.isCause(u)]. *)
Definition isCause (u : JsVal) : bool :=
  match u with
  | VCause _ => true
  | _ => false
  end.

(** [Cause.die(defect)]. *)
Definition die (defect : JsVal) : Cause := CauseDie defect.

(** [Cause.failureOption(cause)]: the first expected error of the cause. *)
Fixpoint failureOption (c : Cause) : option JsVal :=
  match c with
  | CauseFail e => Some e
  | CauseSequential l r | CauseParallel l r =>
      match failureOption l with
      | Some e => Some e
      | None => failureOption r
      end
  | _ => None
  end.

(** [Cause.isInterrupted(cause)]: the cause is or contains an interruption. *)
Fixpoint isInterrupted (c : Cause) : bool :=
  match c with
  | CauseInterrupt _ => true
  | CauseSequential l r | CauseParallel l r => isInterrupted l || isInterrupted r
  | _ => false
  end.

End Cause.

(** [e instanceof Promise]. *)
Definition instanceofPromise (e : JsVal) : bool :=
  match e with
  | VPromise _ _ => true
  | _ => false
  end.

(** [!!x] on an optional boolean property. *)
Definition truthy (x : option bool) : bool :=
  match x with
  | Some true => true
  | _ => false
  end.

(** [x.pipe(f, g)]. *)
Definition pipe2 {A B C : Type} (x : A) (f : A -> B) (g : B -> C) : C := g (f x).

(** ** The external collaborators *)

(** A constructed capability instance: which layer built it, and the
    serial number of the construction that produced it. *)
Record Instance : Type := {
  builtFrom : string;
  serial : nat
}.

(** A constructed execution context bound to a resolved capability set.
    [runtimeId] is the identity of the runtime object. *)
Record ManagedRuntime : Type := {
  runtimeId : nat;
  services : Instance
}.

(** The second argument of [Effect.withSpan]. *)
Record SpanOptions : Type := {
  attributes : list (string * JsVal)
}.

Module RunOptions.
(** The options object of [runtime.runPromiseExit(effect, options)]. *)
Record t (AbortSignal : Type) : Type := {
  signal : option AbortSignal
}.
Arguments signal {AbortSignal} _.
End RunOptions.

(** The part of the effect library the adapter consumes: effects are
    opaque descriptions, [withSpan] wraps one in a named tracing span,
    and [runPromiseExit] is the execution bridge, [None] standing for a
    call that passes no options object. *)
Class EffectLib : Type := {
  Effect : Type;
  AbortSignal : Type;
  withSpan : string -> SpanOptions -> Effect -> Effect;
  runPromiseExit : ManagedRuntime -> Effect -> option (RunOptions.t AbortSignal) -> Promise Exit
}.

Module Schema.

(** A bidirectional schema: [decode] takes the wire shape to the rich
    type and [encode] goes back; each either fails with a parse issue or
    yields a value. *)
Record t : Type := {
  decode : JsVal -> string + JsVal;
  encode : JsVal -> string + JsVal
}.

(** [Schema.encodeSync(schema)(data)]: throws a [ParseError] on failure. *)
Definition encodeSync (schema : t) (data : JsVal) : Completion JsVal :=
  match encode schema data with
  | inr wire => Normal wire
  | inl issue => Throw (VParseError issue)
  end.

(** [Schema.decodeSync(schema)(data)]: throws a [ParseError] on failure. *)
Definition decodeSync (schema : t) (data : JsVal) : Completion JsVal :=
  match decode schema data with
  | inr rich => Normal rich
  | inl issue => Throw (VParseError issue)
  end.

End Schema.

(** ** options.ts *)

Module QueryFunctionContext.
(** What the cache layer hands to a fetch function. *)
Record t `{EffectLib} : Type := {
  signal : AbortSignal
}.
End QueryFunctionContext.

Module QueryOptions.
(** [interface QueryOptions]: the cache layer's native options ([rest])
    with an effect-producing [queryFn], an optional [schema] and the
    optional flag [consumeAbortSignal]. *)
Record t `{EffectLib} : Type := {
  queryKey : JsVal;
  queryFn : unit -> Effect;
  schema : option Schema.t;
  consumeAbortSignal : option bool;
  rest : list (string * JsVal)
}.
End QueryOptions.

Module UseQueryOptions.
(** The promise-shaped options the cache layer drives.  The object
    spread of the translators copies every property of the descriptor;
    [rest] stands for the native cache options, and the copies of
    [schema] and [consumeAbortSignal], which the cache layer does not
    read, are left out. *)
Record t `{EffectLib} : Type := {
  queryKey : JsVal;
  queryFn : QueryFunctionContext.t -> Promise JsVal;
  select : JsVal -> Completion JsVal;
  rest : list (string * JsVal)
}.
End UseQueryOptions.

Module MutationOptions.
(** [interface MutationOptions]; [mutationKey] is [VUndefined] when absent. *)
Record t `{EffectLib} : Type := {
  mutationKey : JsVal;
  mutationFn : JsVal -> Effect;
  rest : list (string * JsVal)
}.
End MutationOptions.

Module UseMutationOptions.
Record t : Type := {
  mutationKey : JsVal;
  mutationFn : JsVal -> Promise JsVal;
  rest : list (string * JsVal)
}.
End UseMutationOptions.

Section Options.
Context `{L : EffectLib}.

(** [makeQueryOptions<R>()] and [makeMutationOptions<R>()] return the
    options they are given; [makeOptions] pairs them. *)
Definition makeQueryOptions (options : QueryOptions.t) : QueryOptions.t := options.
Definition makeMutationOptions (options : MutationOptions.t) : MutationOptions.t := options.
Definition makeOptions : (QueryOptions.t -> QueryOptions.t) * (MutationOptions.t -> MutationOptions.t) :=
  (makeQueryOptions, makeMutationOptions).

(** The cache layer's [queryOptions] and [mutationOptions] helpers are
    identity functions that only carry types. *)
Definition _queryOptions (o : UseQueryOptions.t) : UseQueryOptions.t := o.
Definition _mutationOptions (o : UseMutationOptions.t) : UseMutationOptions.t := o.

Definition runAbortablePromiseExit (runtime : ManagedRuntime) (signal : option AbortSignal)
    (effect : Effect) : Promise Exit :=
  runPromiseExit runtime effect (Some {| RunOptions.signal := signal |}).

(** The span name chosen by [toQueryOptions]. *)
Definition querySpanName (suspense : bool) : string :=
  if suspense then "useSuspenseQuery" else "useQuery".

(** The effect a fetch runs: [options.queryFn()] under its span. *)
Definition spannedQuery (options : QueryOptions.t) (suspense : bool) : Effect :=
  withSpan (querySpanName suspense)
    {| attributes := [("queryKey", QueryOptions.queryKey options)] |}
    (QueryOptions.queryFn options tt).

(** options.ts 121-128, the [.pipe(...)] of the fetch function: the
    effect, wrapped in its span, handed to the bridge.  [pipe] calls
    [runtime.runPromiseExit] with the effect alone, so that branch
    passes no options object. *)
Definition queryFnExit (options : QueryOptions.t) (runtime : ManagedRuntime) (suspense : bool)
    (ctx : QueryFunctionContext.t) : Promise Exit :=
  pipe2 (QueryOptions.queryFn options tt)
    (withSpan (querySpanName suspense)
       {| attributes := [("queryKey", QueryOptions.queryKey options)] |})
    (if truthy (QueryOptions.consumeAbortSignal options)
     then runAbortablePromiseExit runtime (Some (QueryFunctionContext.signal ctx))
     else fun effect => runPromiseExit runtime effect None).

(** options.ts 131-134, the [onSuccess] arm. *)
Definition encodeData (options : QueryOptions.t) (data : JsVal) : Completion JsVal :=
  match QueryOptions.schema options with
  | Some schema => Schema.encodeSync schema data
  | None => Normal data
  end.

(** options.ts 140, the [select] transform. *)
Definition selectData (options : QueryOptions.t) (data : JsVal) : Completion JsVal :=
  match QueryOptions.schema options with
  | Some schema => Schema.decodeSync schema data
  | None => Normal data
  end.

(** [toQueryOptions(options, runtime, suspense = false)]. *)
Definition toQueryOptions (options : QueryOptions.t) (runtime : ManagedRuntime)
    (suspense : option bool) : UseQueryOptions.t :=
  let suspense := default false suspense in
  _queryOptions
    {| UseQueryOptions.queryKey := QueryOptions.queryKey options;
       UseQueryOptions.rest := QueryOptions.rest options;
       UseQueryOptions.queryFn := fun ctx =>
         Promise.then_ (queryFnExit options runtime suspense ctx)
           (Exit.match_
              (fun data => encodeData options data)
              (fun cause => Throw (VCause cause)));
       UseQueryOptions.select := fun data => selectData options data |}.

(** [toMutationOptions(options, runtime)]. *)
Definition toMutationOptions (options : MutationOptions.t) (runtime : ManagedRuntime)
    : UseMutationOptions.t :=
  _mutationOptions
    {| UseMutationOptions.mutationKey := MutationOptions.mutationKey options;
       UseMutationOptions.rest := MutationOptions.rest options;
       UseMutationOptions.mutationFn := fun vars =>
         Promise.then_
           (pipe2 (MutationOptions.mutationFn options vars)
              (withSpan "useMutation"
                 {| attributes := [("mutationKey", MutationOptions.mutationKey options)] |})
              (fun effect => runPromiseExit runtime effect None))
           (fun exit =>
              Exit.match_
                (fun data => Normal data)
                (fun cause => Throw (VCause cause))
                exit) |}.

End Options.

(** ** The effect library's runtime construction *)

(** A capability configuration, identified by the identity of the layer
    value. *)
Record Layer : Type := {
  layerId : string
}.

(** Modelled from the spec: what the effect library keeps behind
    [Layer.makeMemoMap], [ManagedRuntime.make] and [runtime.dispose]
    (sections 3, 4.1 and 6).  Memo tables are mutable objects, so they
    live in a store and are passed by reference; a table maps a layer's
    identity to the capability instance built for it.  [constructions]
    logs every capability construction and [disposals] every call of
    [dispose], oldest first. *)
Record EffectWorld : Type := {
  memoTables : list (gmap string Instance);
  constructions : list string;
  runtimesMade : nat;
  disposals : list nat
}.

Module Layer.

(** Modelled from the spec: [Effect.runSync(Layer.makeMemoMap)] allocates
    a new, empty memo table and returns a reference to it. *)
Definition makeMemoMap (w : EffectWorld) : nat * EffectWorld :=
  (length (memoTables w),
   {| memoTables := memoTables w ++ [∅];
      constructions := constructions w;
      runtimesMade := runtimesMade w;
      disposals := disposals w |}).

End Layer.

Module ManagedRuntime.

(** Modelled from the spec: [ManagedRuntime.make(layer, memoMap)] builds,
    or reuses via the memo table, the capability set described by
    [layer] and returns a new runtime bound to it (section 4.1).  The
    table is append-only (section 5). *)
Definition make (layer : Layer) (memoMap : nat) (w : EffectWorld) : ManagedRuntime * EffectWorld :=
  let table : gmap string Instance := default ∅ (memoTables w !! memoMap) in
  match table !! layerId layer with
  | Some inst =>
      ({| runtimeId := runtimesMade w; services := inst |},
       {| memoTables := memoTables w;
          constructions := constructions w;
          runtimesMade := S (runtimesMade w);
          disposals := disposals w |})
  | None =>
      let inst := {| builtFrom := layerId layer; serial := length (constructions w) |} in
      ({| runtimeId := runtimesMade w; services := inst |},
       {| memoTables := <[memoMap := <[layerId layer := inst]> table]> (memoTables w);
          constructions := constructions w ++ [layerId layer];
          runtimesMade := S (runtimesMade w);
          disposals := disposals w |})
  end.

(** Modelled from the spec: [runtime.dispose()] releases the runtime;
    the call is logged. *)
Definition dispose (runtime : ManagedRuntime) (w : EffectWorld) : EffectWorld :=
  {| memoTables := memoTables w;
     constructions := constructions w;
     runtimesMade := runtimesMade w;
     disposals := disposals w ++ [runtimeId runtime] |}.

End ManagedRuntime.

(** ** The rendering layer and the cache layer *)

Module React.

(** [useMemo(factory, deps)] in a hook whose factory is pure: the
    memoised value is the factory's value. *)
Definition useMemo {T D : Type} (factory : unit -> T) (deps : D) : T := factory tt.

(** [useContext(context)]: the value of the nearest enclosing provider,
    or the context's default value when there is none.  [providers]
    lists the values of the enclosing providers, nearest first. *)
Definition useContext {T : Type} (defaultValue : T) (providers : list T) : T :=
  match providers with
  | value :: _ => value
  | [] => defaultValue
  end.

End React.

(** The cache layer's hooks.  Each is driven by cache state this layer
    never sees, so it is a parameter: a call returns a result or throws. *)
Class QueryLib `{EffectLib} : Type := {
  UseQueryResult : Type;
  UseSuspenseQueryResult : Type;
  UseMutationResult : Type;
  _useQuery : UseQueryOptions.t -> Completion UseQueryResult;
  _useSuspenseQuery : UseQueryOptions.t -> Completion UseSuspenseQueryResult;
  _useMutation : UseMutationOptions.t -> Completion UseMutationResult
}.

Module QueryCache.

(** Modelled from the spec: the cache layer's contract for one query
    (section 6).  The value a fetch resolves with is what the cache
    stores, a thrown value becomes the error state, and [select] is
    applied on every read. *)
Inductive Entry : Type :=
| Stored (wire : JsVal)
| Errored (thrown : JsVal)
| Fetching.

Inductive Observed : Type :=
| ObservedData (rich : JsVal)
| ObservedError (thrown : JsVal)
| ObservedPending.

Definition write (fetched : Promise JsVal) : Entry :=
  match fetched with
  | Resolved wire => Stored wire
  | Rejected e => Errored e
  | Pending => Fetching
  end.

Definition read (select : JsVal -> Completion JsVal) (entry : Entry) : Observed :=
  match entry with
  | Stored wire =>
      match select wire with
      | Normal rich => ObservedData rich
      | Throw e => ObservedError e
      end
  | Errored e => ObservedError e
  | Fetching => ObservedPending
  end.

(** One fetch through the translated options, then one read. *)
Definition fetchThenRead `{EffectLib} (o : UseQueryOptions.t) (ctx : QueryFunctionContext.t) : Observed :=
  read (UseQueryOptions.select o) (write (UseQueryOptions.queryFn o ctx)).

End QueryCache.

(** ** runtime.tsx *)

(** [const memoMap = Effect.runSync(Layer.makeMemoMap)], evaluated once
    when the module is loaded: the reference every provider shares. *)
Definition loadModule (w : EffectWorld) : nat * EffectWorld := Layer.makeMemoMap w.

Section Hooks.
Context `{L : EffectLib} `{Q : !QueryLib}.

(** [React.createContext<ManagedRuntime | null>(null)]. *)
Definition RuntimeContext : option ManagedRuntime := None.

Definition useRuntime (providers : list (option ManagedRuntime)) : Completion ManagedRuntime :=
  let runtime := React.useContext RuntimeContext providers in
  match runtime with
  | None => Throw (VError "useRuntime must be used within a RuntimeProvider")
  | Some runtime => Normal runtime
  end.

Definition useQuery (providers : list (option ManagedRuntime)) (options : QueryOptions.t)
    : Completion UseQueryResult :=
  let* runtime := useRuntime providers in
  let queryOptions := React.useMemo (fun _ => toQueryOptions options runtime None) (options, runtime) in
  _useQuery queryOptions.

Definition useSuspenseQuery (providers : list (option ManagedRuntime)) (options : QueryOptions.t)
    : Completion (Either UseSuspenseQueryResult Cause) :=
  let* runtime := useRuntime providers in
  let queryOptions :=
    React.useMemo (fun _ => toQueryOptions options runtime (Some true)) (options, runtime) in
  match _useSuspenseQuery queryOptions with
  | Normal query => Normal (React.useMemo (fun _ => Right query) query)
  | Throw e =>
      if instanceofPromise e then Throw e
      else
        Normal (React.useMemo
                  (fun _ => Left (match e with
                                  | VCause cause => cause
                                  | _ => Cause.die e
                                  end)) e)
  end.

Definition useMutation (providers : list (option ManagedRuntime)) (options : MutationOptions.t)
    : Completion UseMutationResult :=
  let* runtime := useRuntime providers in
  let mutationOptions := React.useMemo (fun _ => toMutationOptions options runtime) (options, runtime) in
  _useMutation mutationOptions.

End Hooks.

(** *** RuntimeProvider *)

(** The hook cells of one mounted [RuntimeProvider]: the [useMemo] cell
    holding the runtime, [mountedRef.current], and for the effect the
    dependency it last ran with ([runtime], by identity) and the cleanup
    it returned.  The only cleanup the effect ever returns is
    [() => runtime.dispose()], kept as the runtime it closes over.
    [committed] is the rendering layer's own record of whether a render
    of this provider has been committed: hook cells are kept from a
    committed render on, while the cells of a render that is thrown away
    or replayed are not. *)
Record ProviderFiber : Type := {
  committed : bool;
  memoRuntime : option ManagedRuntime;
  mountedRef : bool;
  effectDeps : option nat;
  effectCleanup : option ManagedRuntime
}.

(** A provider that has not rendered yet; [useRef(false)]. *)
Definition freshFiber : ProviderFiber :=
  {| committed := false;
     memoRuntime := None;
     mountedRef := false;
     effectDeps := None;
     effectCleanup := None |}.

(** What the rendering layer does to a mounted component: it calls the
    function body, it commits the passive effects of a render, and it
    runs their cleanups when the effects are taken down. *)
Inductive ReactEvent : Type :=
| Render
| CommitEffects
| UnmountEffects.

Section Provider.
Variable layer : Layer.
Variable memoMap : nat.

(** runtime.tsx 117: [useMemo(() => ManagedRuntime.make(layer, memoMap), [])].
    The empty dependency list never changes, so once a render has been
    committed the cell is returned as it is.  Until then the factory
    runs at every [Render]: at the first one, at a new attempt after the
    rendering layer threw an attempt away, and at the repetition strict
    mode performs in development.  Each run makes a runtime; the cell
    holds the latest, and the earlier ones are dropped without being
    disposed.  (Which of its two results strict mode keeps is up to the
    rendering layer; the properties of a provider below speak of the
    runtime it provides, whichever that is.) *)
Definition useMemoRuntime (f : ProviderFiber) (w : EffectWorld)
    : ManagedRuntime * ProviderFiber * EffectWorld :=
  match memoRuntime f, committed f with
  | Some runtime, true => (runtime, f, w)
  | _, _ =>
      let '(runtime, w') := ManagedRuntime.make layer memoMap w in
      (runtime,
       {| committed := committed f;
          memoRuntime := Some runtime;
          mountedRef := mountedRef f;
          effectDeps := effectDeps f;
          effectCleanup := effectCleanup f |},
       w')
  end.

(** runtime.tsx 121-130, the effect callback: the fiber after it ran and
    the cleanup it returned. *)
Definition providerEffect (runtime : ManagedRuntime) (f : ProviderFiber)
    : ProviderFiber * option ManagedRuntime :=
  if negb (mountedRef f) then
    ({| committed := committed f;
        memoRuntime := memoRuntime f;
        mountedRef := true;
        effectDeps := effectDeps f;
        effectCleanup := effectCleanup f |},
     None)
  else (f, Some runtime).

(** Running a stored cleanup. *)
Definition runCleanup (cleanup : option ManagedRuntime) (w : EffectWorld) : EffectWorld :=
  match cleanup with
  | Some runtime => ManagedRuntime.dispose runtime w
  | None => w
  end.

(** The function body of [RuntimeProvider].  [useRef(false)] keeps its
    cell, [useEffect] hands [providerEffect] to the rendering layer,
    which runs it at commit, and the element returned provides the
    memoised runtime to [RuntimeContext]. *)
Definition RuntimeProvider (f : ProviderFiber) (w : EffectWorld)
    : option ManagedRuntime * ProviderFiber * EffectWorld :=
  let '(runtime, f', w') := useMemoRuntime f w in
  (Some runtime, f', w').

(** [useEffect(effect, [runtime])] at commit: the effect runs when it is
    not mounted or its dependency changed, after the cleanup of its
    previous run.  The render whose effects are committed is committed
    with them. *)
Definition commitEffects (f : ProviderFiber) (w : EffectWorld) : ProviderFiber * EffectWorld :=
  match memoRuntime f with
  | None => (f, w)
  | Some runtime =>
      if decide (effectDeps f = Some (runtimeId runtime)) then (f, w)
      else
        let w' := runCleanup (effectCleanup f) w in
        let '(f', cleanup) := providerEffect runtime f in
        ({| committed := true;
            memoRuntime := memoRuntime f';
            mountedRef := mountedRef f';
            effectDeps := Some (runtimeId runtime);
            effectCleanup := cleanup |},
         w')
  end.

(** Taking the effect down: its cleanup runs, if it returned one. *)
Definition unmountEffects (f : ProviderFiber) (w : EffectWorld) : ProviderFiber * EffectWorld :=
  ({| committed := committed f;
      memoRuntime := memoRuntime f;
      mountedRef := mountedRef f;
      effectDeps := None;
      effectCleanup := None |},
   runCleanup (effectCleanup f) w).

Definition step (s : ProviderFiber * EffectWorld) (ev : ReactEvent) : ProviderFiber * EffectWorld :=
  let '(f, w) := s in
  match ev with
  | Render => let '(_, f', w') := RuntimeProvider f w in (f', w')
  | CommitEffects => commitEffects f w
  | UnmountEffects => unmountEffects f w
  end.

Definition lifecycle (evs : list ReactEvent) (s : ProviderFiber * EffectWorld)
    : ProviderFiber * EffectWorld :=
  fold_left step evs s.

End Provider.

(** A mount outside strict mode: render and commit, any number of
    further renders with their commits, then the unmount. *)
Definition plainLifecycle (rerenders : nat) : list ReactEvent :=
  [Render; CommitEffects] ++ concat (repeat [Render; CommitEffects] rerenders) ++ [UnmountEffects].

(** A mount under strict mode in development: the body is called
    twice, and after the first commit the effects are taken down and run
    again; then the real unmount. *)
Definition strictLifecycle : list ReactEvent :=
  [Render; Render; CommitEffects; UnmountEffects; CommitEffects; UnmountEffects].

(** The fiber once its effect has run for the first time: the flag is
    set and no cleanup is registered. *)
Definition committedOnce (runtime : ManagedRuntime) : ProviderFiber :=
  {| committed := true;
     memoRuntime := Some runtime;
     mountedRef := true;
     effectDeps := Some (runtimeId runtime);
     effectCleanup := None |}.

(** *** A process with several providers *)

(** One page: the module has been loaded once, and any number of
    providers, each created by [make(layer)] for some layer, are mounted
    and driven by the rendering layer.  All of them close over the one
    module-level [memoMap]. *)
Record Process : Type := {
  world : EffectWorld;
  mounted : list (Layer * ProviderFiber)
}.

Inductive ProcessEvent : Type :=
| Mount (layer : Layer)
| Deliver (provider : nat) (ev : ReactEvent).

Definition processStep (memoMap : nat) (p : Process) (e : ProcessEvent) : Process :=
  match e with
  | Mount layer =>
      {| world := world p; mounted := mounted p ++ [(layer, freshFiber)] |}
  | Deliver i ev =>
      match mounted p !! i with
      | Some (layer, f) =>
          let '(f', w') := step layer memoMap (f, world p) ev in
          {| world := w'; mounted := <[i := (layer, f')]> (mounted p) |}
      | None => p
      end
  end.

(** Loading the module, then the events of the page. *)
Definition runProcess (w0 : EffectWorld) (evs : list ProcessEvent) : Process :=
  let '(memoMap, w) := loadModule w0 in
  fold_left (processStep memoMap) evs {| world := w; mounted := [] |}.

(** The runtime a mounted provider currently provides. *)
Definition providedRuntime (p : Process) (i : nat) : option ManagedRuntime :=
  match mounted p !! i with
  | Some (_, f) => memoRuntime f
  | None => None
  end.

(** The layer a mounted provider was made for. *)
Definition providerLayer (p : Process) (i : nat) : option string :=
  match mounted p !! i with
  | Some (layer, _) => Some (layerId layer)
  | None => None
  end.

(** What every reachable process satisfies: the module's memo table
    exists, it holds exactly the layers constructed since the module was
    loaded, each once, and the runtime of every provider is bound to the
    table's instance for the provider's layer. *)
Definition ProcessInvariant (memoMap : nat) (w0 : EffectWorld) (p : Process) : Prop :=
  exists (table : gmap string Instance) (built : list string),
    memoTables (world p) !! memoMap = Some table
    /\ constructions (world p) = constructions w0 ++ built
    /\ NoDup built
    /\ (forall k, k ∈ built <-> is_Some (table !! k))
    /\ (forall i layer f runtime,
          mounted p !! i = Some (layer, f) ->
          memoRuntime f = Some runtime ->
          table !! layerId layer = Some (services runtime)).

(** ** The bridge's contract for cancellation *)

(** Modelled from the spec: "if [options.signal] is supplied and later
    fires, the bridge must cancel the underlying execution and resolve
    with an Exit whose cause is (or contains) an interruption marker,
    not leave the promise pending or reject" (section 4.2).
    [firesMidRun signal effect] says that the signal fires while the
    effect is still running; a tracing span has no bearing on that. *)
Definition HonoursAbort `{L : EffectLib} (firesMidRun : AbortSignal -> Effect -> Prop) : Prop :=
  (forall name attrs signal effect,
     firesMidRun signal effect -> firesMidRun signal (withSpan name attrs effect))
  /\ (forall runtime effect signal,
        firesMidRun signal effect ->
        exists cause,
          runPromiseExit runtime effect (Some {| RunOptions.signal := Some signal |})
          = Resolved (Failure cause)
          /\ Cause.isInterrupted cause = true).

(** ** A reference runtime *)

Module Sim.

(** Modelled from the spec: a minimal execution bridge honouring
    sections 4.2 and 5.  An effect is described by the exit it reaches,
    the number of asynchronous steps it takes to reach it ([None]: it
    never completes on its own) and the spans wrapped around it. *)
Record SimEffect : Type := {
  outcome : Exit;
  duration : option nat;
  spans : list (string * SpanOptions)
}.

(** An abort signal, by the step at which it fires ([None]: never). *)
Record SimSignal : Type := {
  firesAt : option nat
}.

Definition addSpan (name : string) (options : SpanOptions) (effect : SimEffect) : SimEffect :=
  {| outcome := outcome effect;
     duration := duration effect;
     spans := (name, options) :: spans effect |}.

(** The signal fires while the effect is still running. *)
Definition firesMidRun (signal : SimSignal) (effect : SimEffect) : bool :=
  match firesAt signal, duration effect with
  | Some t, Some d => Nat.ltb t d
  | Some _, None => true
  | None, _ => false
  end.

Definition settle (effect : SimEffect) : Promise Exit :=
  match duration effect with
  | Some _ => Resolved (outcome effect)
  | None => Pending
  end.

(** Modelled from the spec: "if [options.signal] is supplied and later
    fires, the bridge must cancel the underlying execution and resolve
    with an Exit whose cause is (or contains) an interruption marker". *)
Definition run (runtime : ManagedRuntime) (effect : SimEffect)
    (options : option (RunOptions.t SimSignal)) : Promise Exit :=
  match options with
  | Some {| RunOptions.signal := Some signal |} =>
      if firesMidRun signal effect
      then Resolved (Failure (CauseInterrupt (runtimeId runtime)))
      else settle effect
  | _ => settle effect
  end.

Definition lib : EffectLib :=
  {| Effect := SimEffect;
     AbortSignal := SimSignal;
     withSpan := addSpan;
     runPromiseExit := run |}.

Definition succeedWith (value : JsVal) : SimEffect :=
  {| outcome := Success value; duration := Some 3; spans := [] |}.

Definition failWith (error : JsVal) : SimEffect :=
  {| outcome := Failure (CauseFail error); duration := Some 3; spans := [] |}.

Definition never : SimEffect :=
  {| outcome := Failure CauseEmpty; duration := None; spans := [] |}.

End Sim.

(** ** Example descriptors *)

Module Examples.

(** [Schema.BooleanFromString]: the wire shape is ["true"] or ["false"],
    the rich type a boolean. *)
Definition BooleanFromString : Schema.t :=
  {| Schema.decode := fun wire =>
       match wire with
       | VStr s =>
           if String.eqb s "true" then inr (VBool true)
           else if String.eqb s "false" then inr (VBool false)
           else inl "Expected a string matching true or false"
       | _ => inl "Expected a string"
       end;
     Schema.encode := fun rich =>
       match rich with
       | VBool true => inr (VStr "true")
       | VBool false => inr (VStr "false")
       | _ => inl "Expected a boolean"
       end |}.

(** [Schema.Positive]: a number with the refinement [n > 0], checked in
    both directions. *)
Definition Positive : Schema.t :=
  let check := fun v =>
    match v with
    | VNum n => if (0 <? n)%Z then inr (VNum n) else inl "Expected a positive number"
    | _ => inl "Expected a number"
    end in
  {| Schema.decode := check; Schema.encode := check |}.


Definition apiClient : Instance := {| builtFrom := "ApiClient"; serial := 0 |}.

Definition runtime0 : ManagedRuntime := {| runtimeId := 0; services := apiClient |}.

Definition query (effect : Sim.SimEffect) (schema : option Schema.t) (consume : option bool)
    : @QueryOptions.t Sim.lib :=
  @QueryOptions.Build_t Sim.lib (VArr [VStr "items"]) (fun _ => effect) schema consume [].

Definition mutation (effect : JsVal -> Sim.SimEffect) : @MutationOptions.t Sim.lib :=
  @MutationOptions.Build_t Sim.lib (VArr [VStr "createItem"]) effect [].

(** A fetch context whose signal fires at step [t], or never. *)
Definition fetchContext (t : option nat) : @QueryFunctionContext.t Sim.lib :=
  @QueryFunctionContext.Build_t Sim.lib {| Sim.firesAt := t |}.

(** Modelled from the spec: the cache layer's hooks for a query that has
    been fetched once with the context [ctx] (section 6).  The suspense
    read returns the selected data, throws the error state, and throws a
    promise while the fetch is still in flight. *)
Definition cacheLib (ctx : @QueryFunctionContext.t Sim.lib) : @QueryLib Sim.lib :=
  @Build_QueryLib Sim.lib
    QueryCache.Observed JsVal (JsVal -> Promise JsVal)
    (fun o => Normal (QueryCache.fetchThenRead o ctx))
    (fun o =>
       match QueryCache.fetchThenRead o ctx with
       | QueryCache.ObservedData rich => Normal rich
       | QueryCache.ObservedError e => Throw e
       | QueryCache.ObservedPending => Throw (VPromise 0 NeverSettled)
       end)
    (fun o => Normal (UseMutationOptions.mutationFn o)).

(** A cache layer that is itself broken: each of its hooks throws [e]
    whatever options it is given, before any fetch function is called. *)
Definition defectiveCache (e : JsVal) : @QueryLib Sim.lib :=
  @Build_QueryLib Sim.lib unit unit unit
    (fun _ => Throw e) (fun _ => Throw e) (fun _ => Throw e).

Definition apiLayer : Layer := {| layerId := "ApiClient.Default" |}.

Definition emptyWorld : EffectWorld :=
  {| memoTables := []; constructions := []; runtimesMade := 0; disposals := [] |}.

End Examples.

(** ** Further lifecycles of a provider *)

(** A mount whose first [attempts] calls of the body are not committed
    (a render the rendering layer threw away, the extra call of strict
    mode) and whose effect, once committed, is taken down and run again
    [remounts] times before the unmount: none outside strict mode, once
    under strict mode, more often when the rendering layer hides and
    shows the subtree again. *)
Definition remountLifecycle (attempts remounts : nat) : list ReactEvent :=
  repeat Render (S attempts)
  ++ [CommitEffects]
  ++ concat (repeat [UnmountEffects; CommitEffects] remounts)
  ++ [UnmountEffects].

(** The fiber after a call of the body that has not been committed. *)
Definition rendered (runtime : ManagedRuntime) : ProviderFiber :=
  {| committed := false;
     memoRuntime := Some runtime;
     mountedRef := false;
     effectDeps := None;
     effectCleanup := None |}.

(** The fiber once its effect has run a second time: the cleanup that
    disposes the runtime is registered. *)
Definition armed (runtime : ManagedRuntime) : ProviderFiber :=
  {| committed := true;
     memoRuntime := Some runtime;
     mountedRef := true;
     effectDeps := Some (runtimeId runtime);
     effectCleanup := Some runtime |}.

(** The number of [Render] events in a lifecycle. *)
Definition renders (evs : list ReactEvent) : nat :=
  length (List.filter (fun ev => match ev with Render => true | _ => false end) evs).

(** What holds of the hook cells of one provider at every point of its
    life: the effect is mounted only once a render has been committed,
    it is mounted with the runtime of the memo cell as its dependency,
    and the only cleanup ever registered is the one of a mounted effect,
    closing over the runtime of the memo cell. *)
Definition HooksConsistent (f : ProviderFiber) : Prop :=
  (committed f = false -> effectDeps f = None)
  /\ (effectDeps f = None -> effectCleanup f = None)
  /\ (forall d, effectDeps f = Some d ->
        exists runtime, memoRuntime f = Some runtime /\ d = runtimeId runtime)
  /\ (forall runtime, effectCleanup f = Some runtime -> memoRuntime f = Some runtime).

(** What every reachable process satisfies about identities: the
    runtimes of its providers are numbered below the world's counter,
    and no two providers hold runtimes with the same identity. *)
Definition DistinctRuntimes (p : Process) : Prop :=
  (forall i runtime, providedRuntime p i = Some runtime ->
                     runtimeId runtime < runtimesMade (world p))
  /\ (forall i j runtime1 runtime2,
        i <> j ->
        providedRuntime p i = Some runtime1 ->
        providedRuntime p j = Some runtime2 ->
        runtimeId runtime1 <> runtimeId runtime2).

(** Every instance in the module's memo table was constructed after the
    first [base] constructions of the process. *)
Definition BuiltAfter (memoMap : nat) (base : nat) (p : Process) : Prop :=
  base <= length (constructions (world p))
  /\ forall table k inst,
       memoTables (world p) !! memoMap = Some table ->
       (table : gmap string Instance) !! k = Some inst ->
       base <= serial inst.

(** ** The example application *)

Module Either.

(** [Either.map(f)]: maps the right-hand side. *)
Definition map {R R' L : Type} (f : R -> R') (self : Either R L) : Either R' L :=
  match self with
  | Right r => Right (f r)
  | Left l => Left l
  end.

(** [Either.getOrElse(onLeft)]. *)
Definition getOrElse {R L : Type} (onLeft : L -> R) (self : Either R L) : R :=
  match self with
  | Right r => r
  | Left l => onLeft l
  end.

End Either.

(** lib/effect-react-query/runtime.ts of the example: the module makes a
    memo map of its own and builds the runtime used by the route loader
    against it. *)
Definition loadExampleRuntime (layer : Layer) (w : EffectWorld) : ManagedRuntime * EffectWorld :=
  let '(memoMap, w') := Layer.makeMemoMap w in
  ManagedRuntime.make layer memoMap w'.

(** The page of the example, started from the world [w0]: the example's
    runtime module is loaded, then the library module, then the
    providers are driven. *)
Definition runExample (layer : Layer) (w0 : EffectWorld) (evs : list ProcessEvent)
    : ManagedRuntime * Process :=
  let '(runtime, w) := loadExampleRuntime layer w0 in
  (runtime, runProcess w evs).

Module StartApp.

(** [typeof Todo.Encoded]; the ids are numbers, here integers. *)
Record Todo : Type := {
  id : Z;
  userId : Z;
  title : string;
  completed : bool
}.

(** The cache layer's [setQueryData(key, updater)] on the entry of one
    key: the updater is given the cached data, and an updater that
    returns [undefined] leaves the entry as it is. *)
Definition setQueryData {T : Type} (updater : option T -> option T) (cached : option T) : option T :=
  match updater cached with
  | Some data => Some data
  | None => cached
  end.

(** [onToggle(todoId)], on the cache entry of [["todos"]]. *)
Definition onToggle (todoId : Z) (cached : option (list Todo)) : option (list Todo) :=
  setQueryData
    (fun old =>
       option_map
         (List.map (fun todo =>
            if Z.eqb (id todo) todoId
            then {| id := id todo;
                    userId := userId todo;
                    title := title todo;
                    completed := negb (completed todo) |}
            else todo))
         old)
    cached.

(** [onDelete(todoId)], on the cache entry of [["todos"]]. *)
Definition onDelete (todoId : Z) (cached : option (list Todo)) : option (list Todo) :=
  setQueryData
    (fun old => option_map (List.filter (fun todo => negb (Z.eqb (id todo) todoId))) old)
    cached.

(** [String.prototype.includes]: [sub] occurs somewhere in [s]. *)
Fixpoint includes (s sub : string) : bool :=
  String.prefix sub s
  || match s with
     | EmptyString => false
     | String _ rest => includes rest sub
     end.

(** What [App] renders: the header's two counts, the list shown, and the
    message shown in place of an empty list. *)
Record View : Type := {
  completedCount : nat;
  totalCount : nat;
  filteredTodos : list Todo;
  emptyMessage : option string
}.

Section Page.
Context `{L : EffectLib} `{Q : !QueryLib}.
(** [String.prototype.toLowerCase], the [data] property of the suspense
    read's result, and the cache layer's [useQueryClient()], which
    returns the client of the enclosing [QueryClientProvider] and throws
    when there is none. *)
Variable toLowerCase : string -> string.
Variable data : UseSuspenseQueryResult -> list Todo.
Context {QueryClient : Type}.
Variable useQueryClient : Completion QueryClient.

(** The derived values of [App] for the todos [todos] and the search
    box's [searchQuery].  An array is truthy, so the [todos ? ... : ...]
    guards always take their first branch. *)
Definition view (todos : list Todo) (searchQuery : string) : View :=
  let filtered :=
    List.filter
      (fun todo => includes (toLowerCase (title todo)) (toLowerCase searchQuery))
      todos in
  {| completedCount := length (List.filter completed todos);
     totalCount := length todos;
     filteredTodos := filtered;
     emptyMessage :=
       match filtered with
       | [] => Some (if String.eqb searchQuery "" then "No todos yet" else "No todos found")
       | _ :: _ => None
       end |}.

(** [App]: the suspense read, its data on the right and the empty list
    on the left, the derived values, and the query client the two
    handlers close over; then the element built from the derived
    values. *)
Definition App (providers : list (option ManagedRuntime)) (todosQueryOptions : QueryOptions.t)
    (searchQuery : string) : Completion View :=
  let* result := useSuspenseQuery providers todosQueryOptions in
  let todos := Either.getOrElse (fun _ => []) (Either.map data result) in
  let derived := view todos searchQuery in
  let* queryClient := useQueryClient in
  Normal derived.

End Page.

End StartApp.

(** ** Example data for the application *)

Module StartAppExamples.

(** [toLowerCase] on the ASCII letters; other bytes are left alone. *)
Definition lowerAscii (c : Ascii.ascii) : Ascii.ascii :=
  let n := Ascii.nat_of_ascii c in
  if Nat.leb 65 n && Nat.leb n 90 then Ascii.ascii_of_nat (n + 32) else c.

Fixpoint toLowerCase (s : string) : string :=
  match s with
  | EmptyString => EmptyString
  | String c rest => String (lowerAscii c) (toLowerCase rest)
  end.

Definition todos : list StartApp.Todo :=
  [ {| StartApp.id := 1; StartApp.userId := 1; StartApp.title := "Buy Milk";
       StartApp.completed := false |};
    {| StartApp.id := 2; StartApp.userId := 1; StartApp.title := "Write tests";
       StartApp.completed := true |} ].

End StartAppExamples.

(** * Properties *)

(** ** Promises *)



(** ** The query translator *)

Section QueryTranslator.
Context `{L : EffectLib}.
Variables (options : QueryOptions.t) (runtime : ManagedRuntime).
Variables (suspense : option bool) (ctx : QueryFunctionContext.t).

Let fetch : Promise JsVal := UseQueryOptions.queryFn (toQueryOptions options runtime suspense) ctx.
Let bridged : Promise Exit := queryFnExit options runtime (default false suspense) ctx.

(** The fetch function is the bridge's promise followed by the
    unwrapping of the exit. *)
Lemma queryFn_then :
  fetch =
  Promise.then_ bridged
    (Exit.match_ (encodeData options) (fun cause => Throw (VCause cause))).
Proof using Type. reflexivity. Qed.


Lemma queryFn_success_throw (v e : JsVal) :
  bridged = Resolved (Success v) -> encodeData options v = Throw e -> fetch = Rejected e.
Proof using Type.
  intros Hexit Henc. rewrite queryFn_then, Hexit. simpl. now rewrite Henc.
Qed.

Lemma queryFn_failure (c : Cause) :
  bridged = Resolved (Failure c) -> fetch = Rejected (VCause c).
Proof using Type.
  intros Hexit. now rewrite queryFn_then, Hexit.
Qed.

Lemma select_is_selectData (data : JsVal) :
  UseQueryOptions.select (toQueryOptions options runtime suspense) data = selectData options data.
Proof using Type. reflexivity. Qed.


End QueryTranslator.




(** C2.  When the descriptor's effect fails with a cause whose expected
    error is the declared error [e] (for [Effect.fail(e)], the cause
    [CauseFail e]), the fetch function rejects and the rejection reason
    is that cause itself, whole: whatever the promise rejects with is a
    cause whose expected-error payload is [e], and it is what the
    cache's error state holds. *)
Theorem toQueryOptions_failure_rejects_with_cause `{L : EffectLib}
    (options : QueryOptions.t) (runtime : ManagedRuntime) (suspense : option bool)
    (ctx : QueryFunctionContext.t) (cause : Cause) (e : JsVal) :
  queryFnExit options runtime (default false suspense) ctx = Resolved (Failure cause) ->
  Cause.failureOption cause = Some e ->
  let translated := toQueryOptions options runtime suspense in
  UseQueryOptions.queryFn translated ctx = Rejected (VCause cause)
  /\ (forall reason,
        UseQueryOptions.queryFn translated ctx = Rejected reason ->
        exists thrown, reason = VCause thrown /\ Cause.failureOption thrown = Some e)
  /\ QueryCache.fetchThenRead translated ctx = QueryCache.ObservedError (VCause cause).
Proof.
  intros Hexit Hpayload translated.
  pose proof (queryFn_failure options runtime suspense ctx _ Hexit) as Hfetch.
  fold translated in Hfetch. split_and!.
  - exact Hfetch.
  - intros reason Hreason. rewrite Hfetch in Hreason. injection Hreason as <-.
    now exists cause.
  - unfold QueryCache.fetchThenRead. now rewrite Hfetch.
Qed.

(** The spec's scenario: the effect fails with [NotFoundError]. *)
Lemma toQueryOptions_failure_rejects_with_cause_witness :
  let options := Examples.query (Sim.failWith (VStr "NotFoundError")) None None in
  let translated := toQueryOptions options Examples.runtime0 (Some true) in
  let ctx := Examples.fetchContext None in
  UseQueryOptions.queryFn translated ctx = Rejected (VCause (CauseFail (VStr "NotFoundError")))
  /\ (forall reason,
        UseQueryOptions.queryFn translated ctx = Rejected reason ->
        exists thrown,
          reason = VCause thrown
          /\ Cause.failureOption thrown = Some (VStr "NotFoundError"))
  /\ QueryCache.fetchThenRead translated ctx
     = QueryCache.ObservedError (VCause (CauseFail (VStr "NotFoundError"))).
Proof.
  intros options translated ctx.
  exact (toQueryOptions_failure_rejects_with_cause options Examples.runtime0 (Some true) ctx
           (CauseFail (VStr "NotFoundError")) (VStr "NotFoundError") eq_refl eq_refl).
Defined.

(** C10.  With a schema configured, if encoding the successful value
    fails, the fetch function rejects with the thrown [ParseError]; that
    value is not a cause, and it is what the cache's error state holds. *)
Theorem toQueryOptions_encode_failure_rejects `{L : EffectLib}
    (options : QueryOptions.t) (runtime : ManagedRuntime) (suspense : option bool)
    (ctx : QueryFunctionContext.t) (schema : Schema.t) (v : JsVal) (issue : string) :
  QueryOptions.schema options = Some schema ->
  queryFnExit options runtime (default false suspense) ctx = Resolved (Success v) ->
  Schema.encode schema v = inl issue ->
  let translated := toQueryOptions options runtime suspense in
  UseQueryOptions.queryFn translated ctx = Rejected (VParseError issue)
  /\ Cause.isCause (VParseError issue) = false
  /\ QueryCache.fetchThenRead translated ctx = QueryCache.ObservedError (VParseError issue).
Proof.
  intros Hsome Hexit Henc translated.
  assert (Hfetch : UseQueryOptions.queryFn translated ctx = Rejected (VParseError issue)).
  { apply (queryFn_success_throw options runtime suspense ctx v _ Hexit).
    unfold encodeData, Schema.encodeSync. now rewrite Hsome, Henc. }
  repeat split; [exact Hfetch |].
  unfold QueryCache.fetchThenRead. now rewrite Hfetch.
Qed.

Lemma toQueryOptions_encode_failure_rejects_witness :
  let options := Examples.query (Sim.succeedWith (VNum (-1))) (Some Examples.Positive) None in
  let translated := toQueryOptions options Examples.runtime0 None in
  UseQueryOptions.queryFn translated (Examples.fetchContext None)
  = Rejected (VParseError "Expected a positive number")
  /\ Cause.isCause (VParseError "Expected a positive number") = false
  /\ QueryCache.fetchThenRead translated (Examples.fetchContext None)
     = QueryCache.ObservedError (VParseError "Expected a positive number").
Proof.
  intros options translated.
  exact (toQueryOptions_encode_failure_rejects options Examples.runtime0 None
           (Examples.fetchContext None) Examples.Positive (VNum (-1))
           "Expected a positive number" eq_refl eq_refl eq_refl).
Defined.




(** ** The mutation translator *)




(** ** Cancellation *)

(** The reference bridge honours the contract. *)
Lemma Sim_honours_abort :
  @HonoursAbort Sim.lib (fun signal effect => Sim.firesMidRun signal effect = true).
Proof.
  split.
  - intros name attrs signal effect Hfires. exact Hfires.
  - intros runtime effect signal Hfires.
    exists (CauseInterrupt (runtimeId runtime)). split; [| reflexivity].
    cbn. unfold Sim.run. now rewrite Hfires.
Qed.

(** Whether the signal reaches the bridge is decided by the flag alone. *)
Lemma queryFnExit_forwards `{L : EffectLib}
    (options : QueryOptions.t) (runtime : ManagedRuntime) (suspense : bool)
    (ctx : QueryFunctionContext.t) :
  queryFnExit options runtime suspense ctx =
  runPromiseExit runtime (spannedQuery options suspense)
    (if truthy (QueryOptions.consumeAbortSignal options)
     then Some {| RunOptions.signal := Some (QueryFunctionContext.signal ctx) |}
     else None).
Proof.
  unfold queryFnExit, spannedQuery, pipe2, runAbortablePromiseExit.
  now destruct (truthy (QueryOptions.consumeAbortSignal options)).
Qed.

(** C6, as amended.  With [consumeAbortSignal] set, the fetch function
    built by [toQueryOptions] hands the fetch's signal to the bridge
    together with the spanned effect.  So on a bridge that honours its
    contract, a signal firing mid-run makes the bridge's promise resolve
    with a [Failure] whose cause contains an interruption, and the fetch
    function's own promise rejects with that cause: it does not hang and
    it does not resolve.  With the flag unset or false the bridge is
    called without options, and the fetch is the same whatever the
    signal. *)
Theorem toQueryOptions_abort_signal `{L : EffectLib}
    (firesMidRun : AbortSignal -> Effect -> Prop)
    (options : QueryOptions.t) (runtime : ManagedRuntime) (suspense : option bool)
    (ctx : QueryFunctionContext.t) :
  HonoursAbort firesMidRun ->
  let translated := toQueryOptions options runtime suspense in
  let unwrap := Exit.match_ (encodeData options) (fun cause => Throw (VCause cause)) in
  (truthy (QueryOptions.consumeAbortSignal options) = true ->
     UseQueryOptions.queryFn translated ctx =
     Promise.then_
       (runPromiseExit runtime (spannedQuery options (default false suspense))
          (Some {| RunOptions.signal := Some (QueryFunctionContext.signal ctx) |}))
       unwrap
     /\ (firesMidRun (QueryFunctionContext.signal ctx) (QueryOptions.queryFn options tt) ->
         exists cause,
           queryFnExit options runtime (default false suspense) ctx = Resolved (Failure cause)
           /\ Cause.isInterrupted cause = true
           /\ UseQueryOptions.queryFn translated ctx = Rejected (VCause cause)))
  /\ (truthy (QueryOptions.consumeAbortSignal options) = false ->
      UseQueryOptions.queryFn translated ctx =
      Promise.then_
        (runPromiseExit runtime (spannedQuery options (default false suspense)) None)
        unwrap
      /\ forall ctx', UseQueryOptions.queryFn translated ctx'
                      = UseQueryOptions.queryFn translated ctx).
Proof.
  intros [Hspan Hbridge] translated unwrap. unfold translated.
  split; intros Hflag.
  - split; [now rewrite queryFn_then, queryFnExit_forwards, Hflag |].
    intros Hfires.
    destruct (Hbridge runtime (spannedQuery options (default false suspense))
                (QueryFunctionContext.signal ctx)) as (cause & Hrun & Hint).
    { unfold spannedQuery. now apply Hspan. }
    assert (Hexit : queryFnExit options runtime (default false suspense) ctx
                    = Resolved (Failure cause))
      by now rewrite queryFnExit_forwards, Hflag.
    exists cause. split_and!; [exact Hexit | exact Hint |].
    now apply queryFn_failure.
  - split; [now rewrite queryFn_then, queryFnExit_forwards, Hflag |].
    intros ctx'. now rewrite !queryFn_then, !queryFnExit_forwards, Hflag.
Qed.

(** On the reference bridge: an abortable fetch of an effect that would
    never complete, and of one that would succeed at step 3, both
    cancelled at step 1, reject with the interruption; and the same
    signal ignored by a descriptor without the flag, whose fetch
    resolves. *)
Lemma toQueryOptions_abort_signal_witness :
  (exists cause,
     UseQueryOptions.queryFn
       (toQueryOptions (Examples.query Sim.never None (Some true)) Examples.runtime0 None)
       (Examples.fetchContext (Some 1)) = Rejected (VCause cause)
     /\ Cause.isInterrupted cause = true)
  /\ (exists cause,
        UseQueryOptions.queryFn
          (toQueryOptions (Examples.query (Sim.succeedWith (VNum 7)) None (Some true))
             Examples.runtime0 (Some true))
          (Examples.fetchContext (Some 1)) = Rejected (VCause cause)
        /\ Cause.isInterrupted cause = true)
  /\ UseQueryOptions.queryFn
       (toQueryOptions (Examples.query (Sim.succeedWith (VNum 7)) None None) Examples.runtime0 None)
       (Examples.fetchContext (Some 1)) = Resolved (VNum 7).
Proof.
  pose proof (fun options suspense =>
    @toQueryOptions_abort_signal Sim.lib (fun signal effect => Sim.firesMidRun signal effect = true)
      options Examples.runtime0 suspense (Examples.fetchContext (Some 1)) Sim_honours_abort)
    as Hclaim.
  split_and!.
  - destruct (Hclaim (Examples.query Sim.never None (Some true)) None) as [Hset _].
    destruct (Hset eq_refl) as [_ Hfires].
    destruct (Hfires eq_refl) as (cause & _ & Hint & Hfetch).
    exists cause. exact (conj Hfetch Hint).
  - destruct (Hclaim (Examples.query (Sim.succeedWith (VNum 7)) None (Some true)) (Some true))
      as [Hset _].
    destruct (Hset eq_refl) as [_ Hfires].
    destruct (Hfires eq_refl) as (cause & _ & Hint & Hfetch).
    exists cause. exact (conj Hfetch Hint).
  - destruct (Hclaim (Examples.query (Sim.succeedWith (VNum 7)) None None) None)
      as [_ Hunset].
    destruct (Hunset eq_refl) as [Hrun _]. rewrite Hrun. reflexivity.
Defined.

(** C6 as stated fails on the promise of the fetch function.  A
    descriptor with [consumeAbortSignal] set, an effect that would
    succeed at step 3 and a signal that fires at step 1: the bridge's
    promise resolves with the interruption, and the fetch function's
    promise rejects with it. *)
Lemma toQueryOptions_abort_signal_counterexample :
  let options := Examples.query (Sim.succeedWith (VNum 7)) None (Some true) in
  let ctx := Examples.fetchContext (Some 1) in
  let fetch := UseQueryOptions.queryFn (toQueryOptions options Examples.runtime0 None) ctx in
  truthy (QueryOptions.consumeAbortSignal options) = true
  /\ Sim.firesMidRun (QueryFunctionContext.signal ctx) (QueryOptions.queryFn options tt) = true
  /\ queryFnExit options Examples.runtime0 false ctx = Resolved (Failure (CauseInterrupt 0))
  /\ fetch = Rejected (VCause (CauseInterrupt 0))
  /\ ~ (exists value, fetch = Resolved value).
Proof.
  intros options ctx fetch. split_and!; try reflexivity.
  intros [value Hvalue]. discriminate Hvalue.
Qed.

(** ** Hooks *)

Section HookFacts.
Context `{L : EffectLib} `{Q : !QueryLib}.

Lemma useRuntime_no_provider :
  useRuntime [] = Throw (VError "useRuntime must be used within a RuntimeProvider").
Proof using Type. reflexivity. Qed.

Lemma useRuntime_provider (runtime : ManagedRuntime) (outer : list (option ManagedRuntime)) :
  useRuntime (Some runtime :: outer) = Normal runtime.
Proof using Type. reflexivity. Qed.

(** Inside a provider the suspense hook is the cache layer's read with
    its exceptions sorted: a promise is thrown again, anything else is
    returned on the left. *)
Lemma useSuspenseQuery_provider (runtime : ManagedRuntime) (outer : list (option ManagedRuntime))
    (options : QueryOptions.t) :
  useSuspenseQuery (Some runtime :: outer) options =
  match _useSuspenseQuery (toQueryOptions options runtime (Some true)) with
  | Normal query => Normal (Right query)
  | Throw e =>
      if instanceofPromise e then Throw e
      else Normal (Left (match e with VCause cause => cause | _ => CauseDie e end))
  end.
Proof using Type. reflexivity. Qed.

End HookFacts.

(** C3, as amended.  Inside a provider, whatever the suspense-read
    primitive does: a result comes back as [Right result]; a thrown
    promise is thrown again unchanged; any other thrown value, a defect
    of the cache layer included, is returned as [Left cause], the cause
    itself when it is one and [die] of the value otherwise; so the only
    thing the hook throws is a promise the primitive threw.  The
    configuration error of [useRuntime], raised before the primitive is
    reached, is not captured and propagates unchanged. *)
Theorem useSuspenseQuery_outcomes `{L : EffectLib} `{Q : !QueryLib}
    (runtime : ManagedRuntime) (outer : list (option ManagedRuntime)) (options : QueryOptions.t) :
  let read := _useSuspenseQuery (toQueryOptions options runtime (Some true)) in
  let hook := useSuspenseQuery (Some runtime :: outer) options in
  (forall result, read = Normal result -> hook = Normal (Right result))
  /\ (forall cause, read = Throw (VCause cause) -> hook = Normal (Left cause))
  /\ (forall e, read = Throw e -> instanceofPromise e = false -> Cause.isCause e = false ->
        hook = Normal (Left (Cause.die e)))
  /\ (forall e, read = Throw e -> instanceofPromise e = true -> hook = Throw e)
  /\ (forall e, hook = Throw e -> instanceofPromise e = true /\ read = Throw e)
  /\ useSuspenseQuery [] options
     = Throw (VError "useRuntime must be used within a RuntimeProvider").
Proof.
  intros read hook.
  assert (Hhook : hook =
            match read with
            | Normal query => Normal (Right query)
            | Throw e =>
                if instanceofPromise e then Throw e
                else Normal (Left (match e with VCause cause => cause | _ => CauseDie e end))
            end) by apply useSuspenseQuery_provider.
  assert (Hthrown : forall e, hook = Throw e -> instanceofPromise e = true /\ read = Throw e).
  { intros e He. rewrite Hhook in He.
    destruct read as [query | thrown]; [discriminate He |].
    destruct (instanceofPromise thrown) eqn:Hpromise; [| discriminate He].
    now injection He as <-. }
  split_and!.
  - intros result Hread. now rewrite Hhook, Hread.
  - intros cause Hread. now rewrite Hhook, Hread.
  - intros e Hread Hpromise Hcause. rewrite Hhook, Hread, Hpromise.
    destruct e; try reflexivity. discriminate Hcause.
  - intros e Hread Hpromise. now rewrite Hhook, Hread, Hpromise.
  - exact Hthrown.
  - reflexivity.
Qed.

(** The hook over a cache that fetched once.  A failing effect comes
    back as [Left] of its cause, a fetch still in flight throws its
    promise again, a success comes back as [Right], and the parse error
    of a failed encode comes back as [Left] of a defect. *)
Lemma useSuspenseQuery_outcomes_witness :
  let hook := fun effect schema =>
    @useSuspenseQuery Sim.lib (Examples.cacheLib (Examples.fetchContext None))
      [Some Examples.runtime0] (Examples.query effect schema None) in
  hook (Sim.failWith (VStr "NotFoundError")) None
  = Normal (Left (CauseFail (VStr "NotFoundError")))
  /\ hook Sim.never None = Throw (VPromise 0 NeverSettled)
  /\ hook (Sim.succeedWith (VBool true)) (Some Examples.BooleanFromString)
     = Normal (Right (VBool true))
  /\ hook (Sim.succeedWith (VNum (-1))) (Some Examples.Positive)
     = Normal (Left (CauseDie (VParseError "Expected a positive number"))).
Proof.
  intros hook.
  pose proof (fun effect schema =>
    @useSuspenseQuery_outcomes Sim.lib (Examples.cacheLib (Examples.fetchContext None))
      Examples.runtime0 [] (Examples.query effect schema None)) as Hhook.
  split_and!.
  - destruct (Hhook (Sim.failWith (VStr "NotFoundError")) None) as (_ & Hleft & _).
    exact (Hleft _ eq_refl).
  - destruct (Hhook Sim.never None) as (_ & _ & _ & Hpending & _).
    exact (Hpending _ eq_refl eq_refl).
  - destruct (Hhook (Sim.succeedWith (VBool true)) (Some Examples.BooleanFromString))
      as (Hright & _).
    exact (Hright _ eq_refl).
  - destruct (Hhook (Sim.succeedWith (VNum (-1))) (Some Examples.Positive))
      as (_ & _ & Hdefect & _).
    exact (Hdefect _ eq_refl eq_refl eq_refl).
Defined.

(** C3 as stated fails on a defect thrown by the cache layer itself,
    outside the translation of this layer: a [TypeError] out of the
    suspense-read primitive does not propagate to an enclosing failure
    boundary; the hook returns it on the left, wrapped by [Cause.die]. *)
Lemma useSuspenseQuery_defect_counterexample :
  let defect := VError "TypeError: Cannot read properties of undefined" in
  let hook :=
    @useSuspenseQuery Sim.lib (Examples.defectiveCache defect) [Some Examples.runtime0]
      (Examples.query (Sim.succeedWith (VNum 7)) None None) in
  @_useSuspenseQuery Sim.lib (Examples.defectiveCache defect)
    (toQueryOptions (Examples.query (Sim.succeedWith (VNum 7)) None None)
       Examples.runtime0 (Some true)) = Throw defect
  /\ instanceofPromise defect = false
  /\ Cause.isCause defect = false
  /\ hook = Normal (Left (CauseDie defect))
  /\ hook <> Throw defect.
Proof.
  intros defect hook. split_and!; try reflexivity. discriminate.
Qed.

(** C8.  Without an enclosing provider the runtime lookup throws the
    configuration error, and so does each hook, before the cache layer
    is reached; nothing is defaulted.  Inside a provider the lookup
    returns the runtime of the nearest one, and the hooks hand the
    options translated with it to the cache layer. *)
Theorem hooks_fail_fast_without_provider `{L : EffectLib} `{Q : !QueryLib}
    (query : QueryOptions.t) (mutation : MutationOptions.t) :
  let configurationError := VError "useRuntime must be used within a RuntimeProvider" in
  useRuntime [] = Throw configurationError
  /\ useQuery [] query = Throw configurationError
  /\ useSuspenseQuery [] query = Throw configurationError
  /\ useMutation [] mutation = Throw configurationError
  /\ (forall runtime outer,
        useRuntime (Some runtime :: outer) = Normal runtime
        /\ useQuery (Some runtime :: outer) query = _useQuery (toQueryOptions query runtime None)
        /\ useMutation (Some runtime :: outer) mutation
           = _useMutation (toMutationOptions mutation runtime)).
Proof.
  intros configurationError. repeat split.
Qed.

(** ** The provider's lifecycle *)

Section ProviderFacts.
Variable layer : Layer.
Variable memoMap : nat.

Lemma make_runtimeId (w : EffectWorld) :
  runtimeId (ManagedRuntime.make layer memoMap w).1 = runtimesMade w.
Proof using Type.
  unfold ManagedRuntime.make. now destruct (_ !! layerId layer).
Qed.

Lemma make_disposals (w : EffectWorld) :
  disposals (ManagedRuntime.make layer memoMap w).2 = disposals w.
Proof using Type.
  unfold ManagedRuntime.make. now destruct (_ !! layerId layer).
Qed.

Lemma make_runtimesMade (w : EffectWorld) :
  runtimesMade (ManagedRuntime.make layer memoMap w).2 = S (runtimesMade w).
Proof using Type.
  unfold ManagedRuntime.make. now destruct (_ !! layerId layer).
Qed.

Lemma lifecycle_app (evs evs' : list ReactEvent) (s : ProviderFiber * EffectWorld) :
  lifecycle layer memoMap (evs ++ evs') s = lifecycle layer memoMap evs' (lifecycle layer memoMap evs s).
Proof using Type. apply fold_left_app. Qed.

Lemma first_commit (w : EffectWorld) :
  lifecycle layer memoMap [Render; CommitEffects] (freshFiber, w) =
  (committedOnce (ManagedRuntime.make layer memoMap w).1,
   (ManagedRuntime.make layer memoMap w).2).
Proof using Type.
  unfold lifecycle. simpl. unfold RuntimeProvider, useMemoRuntime. simpl.
  destruct (ManagedRuntime.make layer memoMap w) as [runtime w'] eqn:Hmake. simpl.
  unfold commitEffects. simpl.
  destruct (decide (None = Some (runtimeId runtime))) as [Heq | _]; [discriminate Heq |].
  reflexivity.
Qed.

(** A later render with its commit leaves the fiber and the world as
    they are: the memo cell is full and the dependency is unchanged. *)
Lemma rerender_stable (runtime : ManagedRuntime) (w : EffectWorld) (n : nat) :
  lifecycle layer memoMap (concat (repeat [Render; CommitEffects] n)) (committedOnce runtime, w)
  = (committedOnce runtime, w).
Proof using Type.
  induction n as [| n IH]; [reflexivity |].
  cbn [repeat concat]. unfold lifecycle in *. rewrite fold_left_app.
  assert (Hone : fold_left (step layer memoMap) [Render; CommitEffects] (committedOnce runtime, w)
                 = (committedOnce runtime, w)).
  { simpl. unfold commitEffects. simpl.
    destruct (decide (Some (runtimeId runtime) = Some (runtimeId runtime))) as [_ | Hne];
      [reflexivity | now destruct Hne]. }
  rewrite Hone. exact IH.
Qed.

(** Until a render is committed every call of the body makes a
    runtime and puts it into the memo cell. *)
Lemma render_fresh (w : EffectWorld) :
  step layer memoMap (freshFiber, w) Render
  = (rendered (ManagedRuntime.make layer memoMap w).1, (ManagedRuntime.make layer memoMap w).2).
Proof using Type.
  cbn. unfold RuntimeProvider, useMemoRuntime. cbn.
  now destruct (ManagedRuntime.make layer memoMap w).
Qed.

Lemma render_again (runtime : ManagedRuntime) (w : EffectWorld) :
  step layer memoMap (rendered runtime, w) Render
  = (rendered (ManagedRuntime.make layer memoMap w).1, (ManagedRuntime.make layer memoMap w).2).
Proof using Type.
  cbn. unfold RuntimeProvider, useMemoRuntime. cbn.
  now destruct (ManagedRuntime.make layer memoMap w).
Qed.

Lemma renders_again (n : nat) (runtime : ManagedRuntime) (w : EffectWorld) :
  exists runtime' w',
    lifecycle layer memoMap (repeat Render n) (rendered runtime, w) = (rendered runtime', w')
    /\ disposals w' = disposals w
    /\ runtimesMade w' = n + runtimesMade w.
Proof using Type.
  revert runtime w. induction n as [| n IH]; intros runtime w.
  - exists runtime, w. done.
  - cbn [repeat]. unfold lifecycle in *. cbn [fold_left]. rewrite render_again.
    destruct (IH (ManagedRuntime.make layer memoMap w).1 (ManagedRuntime.make layer memoMap w).2)
      as (runtime' & w' & Hrun & Hdisp & Hmade).
    exists runtime', w'. rewrite make_disposals in Hdisp. rewrite make_runtimesMade in Hmade.
    split_and!; [exact Hrun | exact Hdisp | lia].
Qed.

(** [attempts] calls of the body that are thrown away and one more: each
    made a runtime, and the memo cell holds one of them. *)
Lemma renders_uncommitted (attempts : nat) (w : EffectWorld) :
  exists runtime w',
    lifecycle layer memoMap (repeat Render (S attempts)) (freshFiber, w) = (rendered runtime, w')
    /\ disposals w' = disposals w
    /\ runtimesMade w' = S attempts + runtimesMade w.
Proof using Type.
  cbn [repeat]. unfold lifecycle. cbn [fold_left]. rewrite render_fresh.
  destruct (renders_again attempts (ManagedRuntime.make layer memoMap w).1
              (ManagedRuntime.make layer memoMap w).2) as (runtime & w' & Hrun & Hdisp & Hmade).
  exists runtime, w'. rewrite make_disposals in Hdisp. rewrite make_runtimesMade in Hmade.
  split_and!; [exact Hrun | exact Hdisp | lia].
Qed.

(** The first commit runs the effect for the first time. *)
Lemma commit_rendered (runtime : ManagedRuntime) (w : EffectWorld) :
  lifecycle layer memoMap [CommitEffects] (rendered runtime, w) = (committedOnce runtime, w).
Proof using Type.
  cbn. unfold commitEffects. cbn. now case_decide.
Qed.

(** Taking the effect down and running it again: the first time this
    registers the cleanup, every later time it disposes the runtime and
    registers the cleanup anew. *)
Lemma remount_after_first_commit (runtime : ManagedRuntime) (w : EffectWorld) :
  lifecycle layer memoMap [UnmountEffects; CommitEffects] (committedOnce runtime, w)
  = (armed runtime, w).
Proof using Type.
  cbn. unfold commitEffects. cbn. now case_decide.
Qed.

Lemma remount_when_armed (runtime : ManagedRuntime) (w : EffectWorld) :
  lifecycle layer memoMap [UnmountEffects; CommitEffects] (armed runtime, w)
  = (armed runtime, ManagedRuntime.dispose runtime w).
Proof using Type.
  cbn. unfold commitEffects. cbn. now case_decide.
Qed.

Lemma remounts_when_armed (runtime : ManagedRuntime) (n : nat) (w : EffectWorld) :
  exists w',
    lifecycle layer memoMap (concat (repeat [UnmountEffects; CommitEffects] n)) (armed runtime, w)
    = (armed runtime, w')
    /\ disposals w' = disposals w ++ repeat (runtimeId runtime) n
    /\ runtimesMade w' = runtimesMade w.
Proof using Type.
  revert w. induction n as [| n IH]; intros w.
  - exists w. cbn. now rewrite app_nil_r.
  - cbn [repeat concat]. rewrite lifecycle_app, remount_when_armed.
    destruct (IH (ManagedRuntime.dispose runtime w)) as (w' & Hrun & Hlog & Hmade).
    exists w'. split_and!; [exact Hrun | | exact Hmade].
    rewrite Hlog. cbn. now rewrite <- app_assoc.
Qed.

(** A mount with [attempts] uncommitted calls of the body and [remounts]
    remounts of the effect: [S attempts] runtimes are made, and the one
    the provider provides is disposed [remounts] times. *)
Lemma remountLifecycle_run (attempts remounts : nat) (w : EffectWorld) :
  exists runtime f w',
    lifecycle layer memoMap (remountLifecycle attempts remounts) (freshFiber, w) = (f, w')
    /\ memoRuntime f = Some runtime
    /\ effectCleanup f = None
    /\ disposals w' = disposals w ++ repeat (runtimeId runtime) remounts
    /\ runtimesMade w' = S attempts + runtimesMade w.
Proof using Type.
  unfold remountLifecycle.
  destruct (renders_uncommitted attempts w) as (runtime & w1 & Hrun & Hdisp & Hmade).
  exists runtime. rewrite !lifecycle_app, Hrun, commit_rendered.
  destruct remounts as [| n].
  - cbn. eexists _, _. split_and!; try reflexivity; [| exact Hmade].
    now rewrite app_nil_r.
  - cbn [repeat concat]. rewrite lifecycle_app, remount_after_first_commit.
    destruct (remounts_when_armed runtime n w1) as (w' & -> & Hlog & Hsame).
    cbn. eexists _, _. split_and!; try reflexivity; cbn; [| lia].
    rewrite Hlog, Hdisp, <- app_assoc. f_equal. symmetry. apply repeat_cons.
Qed.

End ProviderFacts.

(** C5, the failing lifecycle.  Outside strict mode a provider renders,
    commits, possibly re-renders, and unmounts.  The first run of the
    effect only sets [mountedRef] and returns no cleanup, and the effect
    never runs again, so the unmount calls [dispose] on nothing: the
    log of disposals is what it was before the provider mounted, although
    one runtime was constructed. *)
Theorem RuntimeProvider_plain_unmount_disposes_nothing
    (layer : Layer) (memoMap : nat) (w : EffectWorld) (rerenders : nat) :
  let '(f, w') := lifecycle layer memoMap (plainLifecycle rerenders) (freshFiber, w) in
  disposals w' = disposals w
  /\ runtimesMade w' = S (runtimesMade w)
  /\ exists runtime, memoRuntime f = Some runtime /\ runtimeId runtime = runtimesMade w.
Proof.
  unfold plainLifecycle. rewrite !lifecycle_app, first_commit, rerender_stable. simpl.
  rewrite make_disposals, make_runtimesMade. repeat split.
  eexists. split; [reflexivity | apply make_runtimeId].
Qed.

(** Under strict mode the body is called twice, each call making a
    runtime, and the effect is taken down and run a second time after
    the first commit; that second run returns the cleanup, and the
    unmount disposes the runtime the provider provides, once.  The
    other runtime is never disposed. *)
Lemma RuntimeProvider_strict_unmount_disposes_once
    (layer : Layer) (memoMap : nat) (w : EffectWorld) :
  let '(f, w') := lifecycle layer memoMap strictLifecycle (freshFiber, w) in
  exists runtime,
    memoRuntime f = Some runtime
    /\ disposals w' = disposals w ++ [runtimeId runtime]
    /\ runtimesMade w' = S (S (runtimesMade w)).
Proof.
  change strictLifecycle with (remountLifecycle 1 1).
  destruct (remountLifecycle_run layer memoMap 1 1 w)
    as (runtime & f & w' & -> & Hmemo & _ & Hlog & Hmade).
  exists runtime. done.
Qed.

(** A provider whose effects are never committed disposes nothing,
    however often it renders or is discarded. *)
Lemma RuntimeProvider_uncommitted_disposes_nothing
    (layer : Layer) (memoMap : nat) (evs : list ReactEvent) (f : ProviderFiber) (w : EffectWorld) :
  CommitEffects ∉ evs -> effectCleanup f = None ->
  disposals (lifecycle layer memoMap evs (f, w)).2 = disposals w
  /\ effectCleanup (lifecycle layer memoMap evs (f, w)).1 = None.
Proof.
  revert f w. induction evs as [| ev evs IH]; intros f w Hno Hclean; [now split |].
  apply not_elem_of_cons in Hno as [Hev Hno].
  change (ev :: evs) with ([ev] ++ evs). rewrite lifecycle_app.
  destruct (lifecycle layer memoMap [ev] (f, w)) as [f1 w1] eqn:Hstep.
  assert (Hkept : effectCleanup f1 = None /\ disposals w1 = disposals w).
  { destruct ev; [| now destruct Hev |]; cbn in Hstep.
    - unfold RuntimeProvider, useMemoRuntime in Hstep.
      pose proof (make_disposals layer memoMap w) as Hmake.
      destruct (ManagedRuntime.make layer memoMap w) as [runtime w'].
      destruct (memoRuntime f) as [kept |]; [destruct (committed f) |];
        cbn in Hstep; now injection Hstep as <- <-.
    - unfold unmountEffects in Hstep. injection Hstep as <- <-.
      now rewrite Hclean. }
  destruct Hkept as [Hc Hd].
  destruct (IH f1 w1 Hno Hc) as [H1 H2]. split; [congruence | exact H2].
Qed.

(** ** The shared memo table *)

(** A runtime construction either finds the layer in the table and
    reuses its instance, or constructs one and records it. *)
Lemma make_cases (layer : Layer) (memoMap : nat) (w : EffectWorld) (table : gmap string Instance) :
  memoTables w !! memoMap = Some table ->
  let '(runtime, w') := ManagedRuntime.make layer memoMap w in
  (table !! layerId layer = Some (services runtime)
   /\ memoTables w' = memoTables w
   /\ constructions w' = constructions w)
  \/ (table !! layerId layer = None
      /\ memoTables w' = <[memoMap := <[layerId layer := services runtime]> table]> (memoTables w)
      /\ constructions w' = constructions w ++ [layerId layer]).
Proof.
  intros Htable. unfold ManagedRuntime.make. rewrite Htable. simpl.
  destruct (table !! layerId layer) as [inst |] eqn:Hlookup; simpl; [left | right]; done.
Qed.

(** An event of the rendering layer either leaves the memo cell, the
    tables and the construction log alone, or it is a render that puts
    a newly made runtime into the memo cell. *)
Lemma step_cases (layer : Layer) (memoMap : nat) (f f' : ProviderFiber) (w w' : EffectWorld)
    (ev : ReactEvent) :
  step layer memoMap (f, w) ev = (f', w') ->
  (memoRuntime f' = memoRuntime f
   /\ memoTables w' = memoTables w
   /\ constructions w' = constructions w)
  \/ (ev = Render
      /\ exists runtime,
           memoRuntime f' = Some runtime
           /\ ManagedRuntime.make layer memoMap w = (runtime, w')).
Proof.
  destruct ev; cbn.
  - unfold RuntimeProvider, useMemoRuntime.
    destruct (ManagedRuntime.make layer memoMap w) as [runtime w1].
    destruct (memoRuntime f) as [kept |] eqn:Hmemo; [destruct (committed f) |];
      intros [= <- <-]; try (left; done);
      right; (split; [done |]); exists runtime; done.
  - unfold commitEffects. destruct (memoRuntime f) as [runtime |] eqn:Hmemo.
    + case_decide.
      * intros [= <- <-]. left. done.
      * unfold providerEffect. destruct (negb (mountedRef f)); cbn;
          intros [= <- <-]; left; cbn; repeat split; try done;
          now destruct (effectCleanup f).
    + intros [= <- <-]. left. done.
  - unfold unmountEffects. intros [= <- <-]. left. cbn.
    repeat split; now destruct (effectCleanup f).
Qed.

Lemma invariant_loaded (w0 : EffectWorld) :
  let '(memoMap, w) := loadModule w0 in
  ProcessInvariant memoMap w0 {| world := w; mounted := [] |}.
Proof.
  cbn. exists ∅, []. cbn. split_and!.
  - now apply list_lookup_middle.
  - now rewrite app_nil_r.
  - constructor.
  - intros k. split.
    + intros Hin. now apply elem_of_nil in Hin.
    + intros [inst Hinst]. now rewrite lookup_empty in Hinst.
  - intros i layer f runtime Hi. now rewrite lookup_nil in Hi.
Qed.

(** Replacing the fiber of provider [i] keeps the invariant's last part
    when the new fiber provides what the table holds for its layer. *)
Lemma fibers_insert (table : gmap string Instance) (fibers : list (Layer * ProviderFiber))
    (i : nat) (layer : Layer) (f' : ProviderFiber) :
  (forall j layer' g rt,
     fibers !! j = Some (layer', g) -> memoRuntime g = Some rt ->
     table !! layerId layer' = Some (services rt)) ->
  (forall rt, memoRuntime f' = Some rt -> table !! layerId layer = Some (services rt)) ->
  forall j layer' g rt,
    <[i := (layer, f')]> fibers !! j = Some (layer', g) -> memoRuntime g = Some rt ->
    table !! layerId layer' = Some (services rt).
Proof.
  intros Hold Hnew j layer' g rt Hj Hg.
  destruct (decide (i = j)) as [<- | Hne].
  - destruct (decide (i < length fibers)) as [Hlt | Hge].
    + rewrite list_lookup_insert_eq in Hj by done. injection Hj as <- <-. now apply Hnew.
    + rewrite list_insert_ge in Hj by lia. exact (Hold _ _ _ _ Hj Hg).
  - rewrite list_lookup_insert_ne in Hj by done. exact (Hold _ _ _ _ Hj Hg).
Qed.

Lemma invariant_step (memoMap : nat) (w0 : EffectWorld) (p : Process) (e : ProcessEvent) :
  ProcessInvariant memoMap w0 p -> ProcessInvariant memoMap w0 (processStep memoMap p e).
Proof.
  intros (table & built & Htable & Hbuilt & Hnodup & Hdom & Hfibers).
  destruct e as [layer | i ev]; unfold processStep.
  - exists table, built. cbn. split_and!; try done.
    intros j layer' f runtime Hj Hmemo.
    apply lookup_app_Some in Hj as [Hj | [_ Hj]]; [exact (Hfibers _ _ _ _ Hj Hmemo) |].
    apply list_lookup_singleton_Some in Hj as [_ [= <- <-]]. discriminate Hmemo.
  - destruct (mounted p !! i) as [[layer f] |] eqn:Hi;
      [| exists table, built; done].
    destruct (step layer memoMap (f, world p) ev) as [f' w'] eqn:Hstep.
    apply step_cases in Hstep as [(Hmemo & Htabs & Hcons) | (Hnone & runtime & Hmemo & Hmake)].
    + exists table, built. cbn. rewrite Htabs, Hcons. split_and!; try done.
      apply fibers_insert; [exact Hfibers |].
      intros rt Hrt. rewrite Hmemo in Hrt. exact (Hfibers _ _ _ _ Hi Hrt).
    + pose proof (make_cases layer memoMap (world p) table Htable) as Hcases.
      rewrite Hmake in Hcases.
      destruct Hcases as [(Hhit & Htabs & Hcons) | (Hmiss & Htabs & Hcons)].
      * exists table, built. cbn. rewrite Htabs, Hcons. split_and!; try done.
        apply fibers_insert; [exact Hfibers |].
        intros rt Hrt. rewrite Hmemo in Hrt. now injection Hrt as <-.
      * exists (<[layerId layer := services runtime]> table), (built ++ [layerId layer]).
        cbn. rewrite Htabs, Hcons.
        assert (Hfresh : layerId layer ∉ built).
        { intros Hin. apply Hdom in Hin as [inst Hinst]. congruence. }
        split_and!.
        -- apply list_lookup_insert_eq. now apply lookup_lt_Some in Htable.
        -- now rewrite Hbuilt, app_assoc.
        -- apply NoDup_app. split_and!; [done | | apply NoDup_singleton].
           intros k Hk Hk'. apply list_elem_of_singleton in Hk' as ->. done.
        -- intros k. rewrite elem_of_app, list_elem_of_singleton, Hdom.
           destruct (decide (layerId layer = k)) as [<- | Hne].
           ++ rewrite lookup_insert_eq. split; [now eexists | now right].
           ++ rewrite lookup_insert_ne by done. split; [| now left].
              intros [Hk | ->]; done.
        -- apply fibers_insert.
           ++ intros j layer' g rt Hj Hg.
              pose proof (Hfibers j layer' g rt Hj Hg) as Hold.
              destruct (decide (layerId layer = layerId layer')) as [Heq | Hne];
                [congruence |].
              now rewrite lookup_insert_ne.
           ++ intros rt Hrt. rewrite Hmemo in Hrt. injection Hrt as <-.
              apply lookup_insert_eq.
Qed.

Lemma invariant_reachable (w0 : EffectWorld) (evs : list ProcessEvent) :
  ProcessInvariant (loadModule w0).1 w0 (runProcess w0 evs).
Proof.
  unfold runProcess. pose proof (invariant_loaded w0) as Hinit.
  destruct (loadModule w0) as [memoMap w]. cbn [fst].
  revert Hinit. generalize {| world := w; mounted := [] |}.
  induction evs as [| e evs IH]; intros p Hp; [exact Hp |].
  cbn [fold_left]. apply IH. now apply invariant_step.
Qed.

(** C9.  In a process that loaded the module once, every provider builds
    its runtime against the module's one memo table.  So the runtimes of
    any two providers made for the same layer are bound to the same
    capability instance, and since the module was loaded no layer has
    been constructed twice. *)
Theorem providers_share_memoised_capability (w0 : EffectWorld) (evs : list ProcessEvent) :
  let p := runProcess w0 evs in
  (forall i j layer runtime1 runtime2,
     providerLayer p i = Some layer ->
     providerLayer p j = Some layer ->
     providedRuntime p i = Some runtime1 ->
     providedRuntime p j = Some runtime2 ->
     services runtime1 = services runtime2)
  /\ exists built,
       constructions (world p) = constructions w0 ++ built /\ NoDup built.
Proof.
  intros p.
  destruct (invariant_reachable w0 evs) as (table & built & _ & Hbuilt & Hnodup & _ & Hfibers).
  fold p in Hbuilt, Hfibers. split; [| now exists built].
  intros i j layer runtime1 runtime2 Hli Hlj Hri Hrj.
  unfold providerLayer, providedRuntime in *.
  destruct (mounted p !! i) as [[layer1 f1] |] eqn:Hi; [| discriminate Hli].
  destruct (mounted p !! j) as [[layer2 f2] |] eqn:Hj; [| discriminate Hlj].
  injection Hli as Hli. injection Hlj as Hlj.
  pose proof (Hfibers i layer1 f1 runtime1 Hi Hri) as H1.
  pose proof (Hfibers j layer2 f2 runtime2 Hj Hrj) as H2.
  rewrite Hli in H1. rewrite Hlj in H2. congruence.
Qed.

(** Two providers of the same layer and one of another, mounted and
    rendered on one page: the two share their instance, the runtimes
    are distinct objects, and two capabilities were constructed in all. *)
Lemma providers_share_memoised_capability_witness :
  let other := {| layerId := "Logger.Default" |} in
  let p := runProcess Examples.emptyWorld
             [Mount Examples.apiLayer; Deliver 0 Render; Deliver 0 CommitEffects;
              Mount other; Deliver 1 Render;
              Mount Examples.apiLayer; Deliver 2 Render] in
  (exists runtime1 runtime2,
     providedRuntime p 0 = Some runtime1
     /\ providedRuntime p 2 = Some runtime2
     /\ runtimeId runtime1 <> runtimeId runtime2
     /\ services runtime1 = services runtime2)
  /\ constructions (world p) = ["ApiClient.Default"; "Logger.Default"].
Proof.
  intros other p.
  destruct (providers_share_memoised_capability Examples.emptyWorld
              [Mount Examples.apiLayer; Deliver 0 Render; Deliver 0 CommitEffects;
               Mount other; Deliver 1 Render;
               Mount Examples.apiLayer; Deliver 2 Render]) as [Hshare _].
  split; [| vm_compute; reflexivity].
  exists {| runtimeId := 0; services := {| builtFrom := "ApiClient.Default"; serial := 0 |} |},
         {| runtimeId := 2; services := {| builtFrom := "ApiClient.Default"; serial := 0 |} |}.
  assert (H0 : providedRuntime p 0 =
               Some {| runtimeId := 0;
                       services := {| builtFrom := "ApiClient.Default"; serial := 0 |} |})
    by (vm_compute; reflexivity).
  assert (H2 : providedRuntime p 2 =
               Some {| runtimeId := 2;
                       services := {| builtFrom := "ApiClient.Default"; serial := 0 |} |})
    by (vm_compute; reflexivity).
  split_and!; [exact H0 | exact H2 | discriminate |].
  apply (Hshare 0 2 "ApiClient.Default"); [vm_compute; reflexivity .. | exact H0 | exact H2].
Defined.

(** * Further properties of the code *)

(** ** How a fetch and a mutation settle *)


(** X2.  The fetch function rejects with [reason] in exactly four ways:
    the bridge's own promise rejected with it; the exit was a failure
    and [reason] is its cause; the exit was a success whose encoding
    the descriptor's schema refused, and [reason] is that parse error;
    or the exit was a success on which the success arm returned a
    promise that rejects with [reason]. *)
Theorem queryFn_rejects_iff `{L : EffectLib}
    (options : QueryOptions.t) (runtime : ManagedRuntime) (suspense : option bool)
    (ctx : QueryFunctionContext.t) (reason : JsVal) :
  let bridged := queryFnExit options runtime (default false suspense) ctx in
  UseQueryOptions.queryFn (toQueryOptions options runtime suspense) ctx = Rejected reason
  <-> bridged = Rejected reason
      \/ (exists cause, bridged = Resolved (Failure cause) /\ reason = VCause cause)
      \/ (exists v schema issue,
            bridged = Resolved (Success v)
            /\ QueryOptions.schema options = Some schema
            /\ Schema.encode schema v = inl issue
            /\ reason = VParseError issue)
      \/ (exists v u,
            bridged = Resolved (Success v)
            /\ encodeData options v = Normal u
            /\ Promise.resolve u = Rejected reason).
Proof.
  intros bridged. rewrite queryFn_then. fold bridged. split.
  - destruct bridged as [[v | cause] | r |]; cbn; try discriminate.
    + destruct (encodeData options v) as [u | e] eqn:Harm.
      * intros Hu. right. right. right. now exists v, u.
      * intros [= <-]. right. right. left.
        unfold encodeData, Schema.encodeSync in Harm.
        destruct (QueryOptions.schema options) as [schema |] eqn:Hschema; [| discriminate].
        destruct (Schema.encode schema v) as [issue | wire] eqn:Henc; [| discriminate].
        injection Harm as <-. now exists v, schema, issue.
    + intros [= <-]. right. left. now exists cause.
    + intros [= <-]. now left.
  - intros [-> | [(cause & -> & ->) | [(v & schema & issue & -> & Hschema & Henc & ->)
                                      | (v & u & -> & Harm & Hu)]]];
      cbn; try reflexivity.
    + unfold encodeData, Schema.encodeSync. now rewrite Hschema, Henc.
    + now rewrite Harm.
Qed.

(** X3.  The mutate function settles as the value its promise is
    resolved with does: it resolves with [v] exactly when the exit is a
    success whose value resolves to [v]; it rejects with [reason]
    exactly when the bridge's promise rejected with it, or the exit was
    a failure whose cause [reason] is, or the exit was a success whose
    value is a promise rejecting with [reason]; and it stays pending
    exactly when the bridge's promise does or the exit was a success
    whose value is a promise that never settles. *)
Theorem mutationFn_settles_iff `{L : EffectLib}
    (options : MutationOptions.t) (runtime : ManagedRuntime) (vars : JsVal) :
  let bridged :=
    runPromiseExit runtime
      (withSpan "useMutation"
         {| attributes := [("mutationKey", MutationOptions.mutationKey options)] |}
         (MutationOptions.mutationFn options vars))
      None in
  let mutate := UseMutationOptions.mutationFn (toMutationOptions options runtime) in
  (forall v,
     mutate vars = Resolved v
     <-> exists u, bridged = Resolved (Success u) /\ Promise.resolve u = Resolved v)
  /\ (forall reason,
        mutate vars = Rejected reason
        <-> bridged = Rejected reason
            \/ (exists cause, bridged = Resolved (Failure cause) /\ reason = VCause cause)
            \/ (exists u, bridged = Resolved (Success u) /\ Promise.resolve u = Rejected reason))
  /\ (mutate vars = Pending
      <-> bridged = Pending
          \/ (exists u, bridged = Resolved (Success u) /\ Promise.resolve u = Pending)).
Proof.
  intros bridged mutate.
  assert (Hmutate : mutate vars =
            Promise.then_ bridged
              (Exit.match_ (fun data => Normal data) (fun cause => Throw (VCause cause))))
    by reflexivity.
  rewrite Hmutate. clear Hmutate.
  destruct bridged as [[v | cause] | r |]; cbn; split_and!; intros; split; intros Hsettled;
    repeat match goal with
           | H : _ \/ _ |- _ => destruct H
           | H : exists _, _ |- _ => destruct H
           | H : _ /\ _ |- _ => destruct H
           end;
    try discriminate; simplify_eq; eauto 6.
Qed.

(** ** One provider, any lifecycle *)

Section OneProvider.
Variable layer : Layer.
Variable memoMap : nat.

Lemma lifecycle_cons (ev : ReactEvent) (evs : list ReactEvent) (s : ProviderFiber * EffectWorld) :
  lifecycle layer memoMap (ev :: evs) s = lifecycle layer memoMap evs (step layer memoMap s ev).
Proof using Type. reflexivity. Qed.

(** Once a render has been committed no event empties the memo cell,
    makes another runtime, or touches the memo tables and the
    construction log. *)
Lemma step_keeps_runtime (f : ProviderFiber) (w : EffectWorld) (ev : ReactEvent)
    (runtime : ManagedRuntime) :
  committed f = true ->
  memoRuntime f = Some runtime ->
  committed (step layer memoMap (f, w) ev).1 = true
  /\ memoRuntime (step layer memoMap (f, w) ev).1 = Some runtime
  /\ runtimesMade (step layer memoMap (f, w) ev).2 = runtimesMade w
  /\ memoTables (step layer memoMap (f, w) ev).2 = memoTables w
  /\ constructions (step layer memoMap (f, w) ev).2 = constructions w.
Proof using Type.
  intros Hcommitted Hmemo. destruct ev; cbn.
  - unfold RuntimeProvider, useMemoRuntime. now rewrite Hmemo, Hcommitted.
  - unfold commitEffects. rewrite Hmemo. case_decide; [done |].
    unfold providerEffect.
    destruct (negb (mountedRef f)); cbn; destruct (effectCleanup f); done.
  - destruct (effectCleanup f); done.
Qed.

Lemma lifecycle_keeps_runtime (evs : list ReactEvent) (f : ProviderFiber) (w : EffectWorld)
    (runtime : ManagedRuntime) :
  committed f = true ->
  memoRuntime f = Some runtime ->
  memoRuntime (lifecycle layer memoMap evs (f, w)).1 = Some runtime
  /\ runtimesMade (lifecycle layer memoMap evs (f, w)).2 = runtimesMade w
  /\ memoTables (lifecycle layer memoMap evs (f, w)).2 = memoTables w
  /\ constructions (lifecycle layer memoMap evs (f, w)).2 = constructions w.
Proof using Type.
  revert f w. induction evs as [| ev evs IH]; intros f w Hcommitted Hmemo; [done |].
  rewrite lifecycle_cons.
  destruct (step_keeps_runtime f w ev runtime Hcommitted Hmemo) as (Hk & Hm & Hr & Ht & Hc).
  destruct (step layer memoMap (f, w) ev) as [f1 w1]. cbn in Hk, Hm, Hr, Ht, Hc.
  destruct (IH f1 w1 Hk Hm) as (Hm' & Hr' & Ht' & Hc').
  split_and!; congruence.
Qed.

Lemma renders_cons (ev : ReactEvent) (evs : list ReactEvent) :
  renders (ev :: evs) = (match ev with Render => 1 | _ => 0 end) + renders evs.
Proof using Type. now destruct ev. Qed.

(** Without a commit every call of the body makes a runtime, and no
    cleanup is ever registered. *)
Lemma uncommitted_lifecycle (evs : list ReactEvent) (f : ProviderFiber) (w : EffectWorld) :
  CommitEffects ∉ evs ->
  committed f = false ->
  effectCleanup f = None ->
  let final := lifecycle layer memoMap evs (f, w) in
  committed final.1 = false
  /\ effectCleanup final.1 = None
  /\ disposals final.2 = disposals w
  /\ runtimesMade final.2 = renders evs + runtimesMade w.
Proof using Type.
  revert f w. induction evs as [| ev evs IH]; intros f w Hno Hfalse Hclean; [done |].
  apply not_elem_of_cons in Hno as [Hev Hno].
  cbn zeta. rewrite lifecycle_cons, renders_cons.
  destruct (step layer memoMap (f, w) ev) as [f1 w1] eqn:Hstep.
  assert (Hkept : committed f1 = false /\ effectCleanup f1 = None
                  /\ disposals w1 = disposals w
                  /\ runtimesMade w1 = (match ev with Render => 1 | _ => 0 end) + runtimesMade w).
  { destruct ev; [| now destruct Hev |]; cbn in Hstep.
    - unfold RuntimeProvider, useMemoRuntime in Hstep. rewrite Hfalse in Hstep.
      pose proof (make_disposals layer memoMap w) as Hdisp.
      pose proof (make_runtimesMade layer memoMap w) as Hmade.
      destruct (ManagedRuntime.make layer memoMap w) as [runtime w'].
      destruct (memoRuntime f) as [kept |]; cbn in Hstep; now injection Hstep as <- <-.
    - unfold unmountEffects in Hstep. injection Hstep as <- <-.
      now rewrite Hclean. }
  destruct Hkept as (Hk & Hc & Hd & Hm).
  destruct (IH f1 w1 Hno Hk Hc) as (H1 & H2 & H3 & H4).
  split_and!; [exact H1 | exact H2 | congruence | lia].
Qed.

Lemma consistent_fresh : HooksConsistent freshFiber.
Proof using Type. unfold HooksConsistent. cbn. split_and!; done. Qed.

(** The consistency of the hook cells is kept by every event, and so
    holds throughout the life of a provider. *)
Lemma consistent_step (f : ProviderFiber) (w : EffectWorld) (ev : ReactEvent) :
  HooksConsistent f -> HooksConsistent (step layer memoMap (f, w) ev).1.
Proof using Type.
  intros (Huncommitted & Hdown & Hdeps & Hclean). destruct ev; cbn [step].
  - unfold RuntimeProvider, useMemoRuntime.
    destruct (ManagedRuntime.make layer memoMap w) as [runtime w'].
    destruct (memoRuntime f) as [kept |] eqn:Hcell; [destruct (committed f) eqn:Hcommitted |].
    + cbn. unfold HooksConsistent. rewrite Hcell, Hcommitted. split_and!; assumption.
    + pose proof (Huncommitted eq_refl) as Hd. pose proof (Hdown Hd) as Hc.
      cbn. unfold HooksConsistent. cbn. rewrite Hd, Hc. split_and!; done.
    + assert (Hd : effectDeps f = None).
      { destruct (effectDeps f) as [d |] eqn:Hd; [| done].
        destruct (Hdeps d eq_refl) as (r & Hr & _). discriminate Hr. }
      pose proof (Hdown Hd) as Hc.
      cbn. unfold HooksConsistent. cbn. rewrite Hd, Hc. split_and!; done.
  - unfold commitEffects.
    destruct (memoRuntime f) as [runtime |] eqn:Hcell; cbn;
      [| unfold HooksConsistent; rewrite Hcell; split_and!; done].
    case_decide as Hsame; cbn;
      [unfold HooksConsistent; rewrite Hcell; split_and!; done |].
    unfold providerEffect.
    destruct (negb (mountedRef f)); cbn; unfold HooksConsistent; cbn; rewrite ?Hcell;
      split_and!; try done.
    all: intros d [= <-]; now exists runtime.
  - unfold unmountEffects, HooksConsistent. cbn. split_and!; done.
Qed.

Lemma consistent_lifecycle (evs : list ReactEvent) (f : ProviderFiber) (w : EffectWorld) :
  HooksConsistent f -> HooksConsistent (lifecycle layer memoMap evs (f, w)).1.
Proof using Type.
  revert f w. induction evs as [| ev evs IH]; intros f w Hf; [exact Hf |].
  rewrite lifecycle_cons.
  pose proof (consistent_step f w ev Hf) as Hstep.
  destruct (step layer memoMap (f, w) ev) as [f1 w1]. now apply IH.
Qed.

(** What an event does to the disposal log of a provider whose hook
    cells are consistent. *)
Lemma consistent_disposals (f : ProviderFiber) (w : EffectWorld) :
  HooksConsistent f ->
  disposals (step layer memoMap (f, w) Render).2 = disposals w
  /\ disposals (step layer memoMap (f, w) CommitEffects).2 = disposals w
  /\ (disposals (step layer memoMap (f, w) UnmountEffects).2 = disposals w
      \/ exists runtime,
           memoRuntime f = Some runtime
           /\ disposals (step layer memoMap (f, w) UnmountEffects).2
              = disposals w ++ [runtimeId runtime]).
Proof using Type.
  intros (Huncommitted & Hdown & Hdeps & Hclean). split_and!.
  - cbn. unfold RuntimeProvider, useMemoRuntime.
    pose proof (make_disposals layer memoMap w) as Hdisp.
    destruct (ManagedRuntime.make layer memoMap w) as [runtime w'].
    destruct (memoRuntime f) as [kept |]; [destruct (committed f) |]; done.
  - cbn. unfold commitEffects.
    destruct (memoRuntime f) as [runtime |] eqn:Hcell; [| done].
    case_decide as Hsame; [done |].
    assert (Hd : effectDeps f = None).
    { destruct (effectDeps f) as [d |] eqn:Hd; [| done].
      destruct (Hdeps d eq_refl) as (r & [= <-] & ->). now destruct Hsame. }
    rewrite (Hdown Hd). unfold providerEffect. now destruct (negb (mountedRef f)).
  - cbn. destruct (effectCleanup f) as [runtime |] eqn:Hcleanup; cbn; [| now left].
    right. exists runtime. split; [now apply Hclean | done].
Qed.

End OneProvider.

(** X4.  Until a render is committed every call of the body makes a
    runtime: after [attempts] calls that are thrown away and the one
    that is committed, [S attempts] runtimes have been made.  From the
    first commit on, whatever the rendering layer does (further
    renders, commits, effect teardowns, in any order and number), the
    provider keeps providing the same runtime and makes no other, and
    the memo tables and the construction log stay as they are. *)
Theorem RuntimeProvider_keeps_committed_runtime
    (layer : Layer) (memoMap : nat) (attempts : nat) (evs : list ReactEvent) (w : EffectWorld) :
  let mountedOnce :=
    lifecycle layer memoMap (repeat Render (S attempts) ++ [CommitEffects]) (freshFiber, w) in
  let final := lifecycle layer memoMap evs mountedOnce in
  runtimesMade mountedOnce.2 = S attempts + runtimesMade w
  /\ is_Some (memoRuntime mountedOnce.1)
  /\ memoRuntime final.1 = memoRuntime mountedOnce.1
  /\ runtimesMade final.2 = runtimesMade mountedOnce.2
  /\ memoTables final.2 = memoTables mountedOnce.2
  /\ constructions final.2 = constructions mountedOnce.2.
Proof.
  intros mountedOnce final. unfold final, mountedOnce.
  destruct (renders_uncommitted layer memoMap attempts w) as (runtime & w1 & Hrun & _ & Hmade).
  rewrite lifecycle_app, Hrun, commit_rendered.
  destruct (lifecycle_keeps_runtime layer memoMap evs (committedOnce runtime) w1 runtime
              eq_refl eq_refl) as (Hm & Hr & Ht & Hc).
  cbn [fst snd]. split_and!; [exact Hmade | now eexists | exact Hm | exact Hr | exact Ht | exact Hc].
Qed.

(** X5.  At every point of a provider's life, a render and a commit
    leave the disposal log as it is, and taking the effect down adds at
    most one entry to it, the runtime the provider provides at that
    point. *)
Theorem RuntimeProvider_disposes_only_its_runtime
    (layer : Layer) (memoMap : nat) (history : list ReactEvent) (w : EffectWorld) :
  let s := lifecycle layer memoMap history (freshFiber, w) in
  disposals (step layer memoMap s Render).2 = disposals s.2
  /\ disposals (step layer memoMap s CommitEffects).2 = disposals s.2
  /\ (disposals (step layer memoMap s UnmountEffects).2 = disposals s.2
      \/ exists runtime,
           memoRuntime s.1 = Some runtime
           /\ disposals (step layer memoMap s UnmountEffects).2
              = disposals s.2 ++ [runtimeId runtime]).
Proof.
  intros s.
  pose proof (consistent_lifecycle layer memoMap history freshFiber w
                (consistent_fresh)) as Hs.
  fold s in Hs. destruct s as [f w']. cbn [fst snd] in *.
  now apply consistent_disposals.
Qed.

(** X6.  A provider that was rendered [S attempts] times before its
    first commit, and whose effect is then taken down and run again
    [remounts] times before the unmount, has made [S attempts] runtimes
    and called [dispose] [remounts] times in all, each time on the
    runtime it provides: never on a plain mount and unmount, and once
    under strict mode, which renders twice and remounts once. *)
Theorem RuntimeProvider_remount_disposals
    (layer : Layer) (memoMap : nat) (attempts remounts : nat) (w : EffectWorld) :
  let final := lifecycle layer memoMap (remountLifecycle attempts remounts) (freshFiber, w) in
  exists runtime,
    memoRuntime final.1 = Some runtime
    /\ disposals final.2 = disposals w ++ repeat (runtimeId runtime) remounts
    /\ runtimesMade final.2 = S attempts + runtimesMade w
    /\ effectCleanup final.1 = None.
Proof.
  intros final. unfold final.
  destruct (remountLifecycle_run layer memoMap attempts remounts w)
    as (runtime & f & w' & -> & Hmemo & Hclean & Hlog & Hmade).
  exists runtime. done.
Qed.

(** X7.  A provider whose effects are never committed, however often it
    renders or has its effects taken down, calls [dispose] on nothing,
    although each of its renders made a runtime. *)
Theorem RuntimeProvider_uncommitted_never_disposes
    (layer : Layer) (memoMap : nat) (evs : list ReactEvent) (w : EffectWorld) :
  CommitEffects ∉ evs ->
  let final := lifecycle layer memoMap evs (freshFiber, w) in
  disposals final.2 = disposals w
  /\ runtimesMade final.2 = renders evs + runtimesMade w
  /\ effectCleanup final.1 = None.
Proof.
  intros Hno final.
  destruct (uncommitted_lifecycle layer memoMap evs freshFiber w Hno eq_refl eq_refl)
    as (_ & Hclean & Hdisp & Hmade).
  done.
Qed.

Lemma RuntimeProvider_uncommitted_never_disposes_witness :
  let final :=
    lifecycle Examples.apiLayer 0 [Render; Render; UnmountEffects; Render; UnmountEffects]
      (freshFiber, (loadModule Examples.emptyWorld).2) in
  disposals final.2 = [] /\ runtimesMade final.2 = 3 /\ effectCleanup final.1 = None.
Proof.
  apply (RuntimeProvider_uncommitted_never_disposes Examples.apiLayer 0
           [Render; Render; UnmountEffects; Render; UnmountEffects]
           (loadModule Examples.emptyWorld).2).
  intros Hin. repeat (apply elem_of_cons in Hin as [Hin | Hin]; [discriminate Hin |]).
  now apply elem_of_nil in Hin.
Defined.

(** ** Several providers *)

(** An event either leaves the memo cell and the counter of runtimes
    alone, or it is a render that puts a newly made runtime, numbered
    by the counter, into the cell. *)
Lemma step_counter_cases (layer : Layer) (memoMap : nat) (f f' : ProviderFiber)
    (w w' : EffectWorld) (ev : ReactEvent) :
  step layer memoMap (f, w) ev = (f', w') ->
  (memoRuntime f' = memoRuntime f /\ runtimesMade w' = runtimesMade w)
  \/ (ev = Render
      /\ exists runtime,
           memoRuntime f' = Some runtime
           /\ runtimeId runtime = runtimesMade w
           /\ runtimesMade w' = S (runtimesMade w)).
Proof.
  intros Hstep. destruct ev; cbn in Hstep.
  - unfold RuntimeProvider, useMemoRuntime in Hstep.
    pose proof (make_runtimeId layer memoMap w) as Hid.
    pose proof (make_runtimesMade layer memoMap w) as Hmade.
    destruct (ManagedRuntime.make layer memoMap w) as [runtime w1].
    cbn in Hid, Hmade.
    destruct (memoRuntime f) as [kept |] eqn:Hcell; [destruct (committed f) |];
      cbn in Hstep; injection Hstep as <- <-; try (left; done);
      right; (split; [done |]); now exists runtime.
  - unfold commitEffects in Hstep.
    destruct (memoRuntime f) as [runtime |] eqn:Hcell.
    + case_decide; [injection Hstep as <- <-; left; done |].
      unfold providerEffect in Hstep.
      destruct (negb (mountedRef f)); cbn in Hstep; injection Hstep as <- <-; cbn; left;
        (split; [done |]); now destruct (effectCleanup f).
    + injection Hstep as <- <-. left. done.
  - unfold unmountEffects in Hstep. injection Hstep as <- <-. cbn. left.
    split; [done |]. now destruct (effectCleanup f).
Qed.

Lemma providedRuntime_insert (p : Process) (w' : EffectWorld) (i j : nat) (layer : Layer)
    (f f' : ProviderFiber) :
  mounted p !! i = Some (layer, f) ->
  providedRuntime {| world := w'; mounted := <[i := (layer, f')]> (mounted p) |} j
  = if decide (i = j) then memoRuntime f' else providedRuntime p j.
Proof.
  intros Hi. unfold providedRuntime. cbn.
  case_decide as Hij.
  - subst j. rewrite list_lookup_insert_eq; [done |]. now apply lookup_lt_Some in Hi.
  - now rewrite list_lookup_insert_ne.
Qed.

Lemma providedRuntime_mount (p : Process) (layer : Layer) (j : nat) (runtime : ManagedRuntime) :
  providedRuntime {| world := world p; mounted := mounted p ++ [(layer, freshFiber)] |} j
  = Some runtime ->
  providedRuntime p j = Some runtime.
Proof.
  unfold providedRuntime. cbn.
  destruct ((mounted p ++ [(layer, freshFiber)]) !! j) as [[layer' f] |] eqn:Hj; [| discriminate].
  apply lookup_app_Some in Hj as [Hj | [_ Hj]].
  - now rewrite Hj.
  - apply list_lookup_singleton_Some in Hj as [_ [= <- <-]]. discriminate.
Qed.

Lemma distinct_step (memoMap : nat) (p : Process) (e : ProcessEvent) :
  DistinctRuntimes p -> DistinctRuntimes (processStep memoMap p e).
Proof.
  intros [Hbelow Hdistinct]. destruct e as [layer | i ev]; unfold processStep.
  - split.
    + intros j runtime Hj. apply providedRuntime_mount in Hj. now apply Hbelow in Hj.
    + intros j1 j2 r1 r2 Hne H1 H2.
      apply providedRuntime_mount in H1, H2. now apply (Hdistinct j1 j2).
  - destruct (mounted p !! i) as [[layer f] |] eqn:Hi; [| now split].
    destruct (step layer memoMap (f, world p) ev) as [f' w'] eqn:Hstep.
    assert (Hprovided : providedRuntime p i = memoRuntime f)
      by (unfold providedRuntime; now rewrite Hi).
    apply step_counter_cases in Hstep
      as [(Hmemo & Hmade) | (Hnone & runtime & Hmemo & Hid & Hmade)].
    + assert (Hsame : forall j,
                providedRuntime {| world := w'; mounted := <[i := (layer, f')]> (mounted p) |} j
                = providedRuntime p j).
      { intros j. rewrite (providedRuntime_insert p w' i j layer f f' Hi).
        case_decide; [subst j; congruence | done]. }
      split.
      * intros j r Hj. rewrite Hsame in Hj. cbn. rewrite Hmade. now apply Hbelow in Hj.
      * intros j1 j2 r1 r2 Hne H1 H2. rewrite Hsame in H1, H2. now apply (Hdistinct j1 j2).
    + split.
      * intros j r Hj. rewrite (providedRuntime_insert p w' i j layer f f' Hi) in Hj. cbn.
        rewrite Hmade. case_decide.
        -- rewrite Hmemo in Hj. injection Hj as <-. lia.
        -- apply Hbelow in Hj. lia.
      * intros j1 j2 r1 r2 Hne H1 H2.
        rewrite (providedRuntime_insert p w' i j1 layer f f' Hi) in H1.
        rewrite (providedRuntime_insert p w' i j2 layer f f' Hi) in H2.
        destruct (decide (i = j1)) as [E1 | N1]; destruct (decide (i = j2)) as [E2 | N2].
        -- congruence.
        -- rewrite Hmemo in H1. injection H1 as <-. apply Hbelow in H2. lia.
        -- rewrite Hmemo in H2. injection H2 as <-. apply Hbelow in H1. lia.
        -- now apply (Hdistinct j1 j2).
Qed.

Lemma distinct_reachable (w0 : EffectWorld) (evs : list ProcessEvent) :
  DistinctRuntimes (runProcess w0 evs).
Proof.
  unfold runProcess. destruct (loadModule w0) as [memoMap w].
  assert (Hinit : DistinctRuntimes {| world := w; mounted := [] |}).
  { split; intros i; unfold providedRuntime; cbn; now rewrite lookup_nil. }
  revert Hinit. generalize {| world := w; mounted := [] |}.
  induction evs as [| e evs IH]; intros p Hp; [exact Hp |].
  cbn [fold_left]. apply IH. now apply distinct_step.
Qed.

(** X8.  Each provider owns its runtime: in any run of the page, two
    different providers never provide the same runtime object, not even
    when they were made for the same layer and so share their
    capability instance. *)
Theorem providers_own_distinct_runtimes
    (w0 : EffectWorld) (evs : list ProcessEvent) (i j : nat) (runtime1 runtime2 : ManagedRuntime) :
  i <> j ->
  providedRuntime (runProcess w0 evs) i = Some runtime1 ->
  providedRuntime (runProcess w0 evs) j = Some runtime2 ->
  runtimeId runtime1 <> runtimeId runtime2.
Proof.
  intros Hne H1 H2.
  destruct (distinct_reachable w0 evs) as [_ Hdistinct].
  now apply (Hdistinct i j).
Qed.

Lemma providers_own_distinct_runtimes_witness :
  let p := runProcess Examples.emptyWorld
             [Mount Examples.apiLayer; Mount Examples.apiLayer;
              Deliver 1 Render; Deliver 0 Render; Deliver 0 CommitEffects] in
  exists runtime1 runtime2,
    providedRuntime p 0 = Some runtime1
    /\ providedRuntime p 1 = Some runtime2
    /\ services runtime1 = services runtime2
    /\ runtimeId runtime1 <> runtimeId runtime2.
Proof.
  intros p.
  exists {| runtimeId := 1; services := {| builtFrom := "ApiClient.Default"; serial := 0 |} |},
         {| runtimeId := 0; services := {| builtFrom := "ApiClient.Default"; serial := 0 |} |}.
  assert (H0 : providedRuntime p 0 =
               Some {| runtimeId := 1;
                       services := {| builtFrom := "ApiClient.Default"; serial := 0 |} |})
    by (vm_compute; reflexivity).
  assert (H1 : providedRuntime p 1 =
               Some {| runtimeId := 0;
                       services := {| builtFrom := "ApiClient.Default"; serial := 0 |} |})
    by (vm_compute; reflexivity).
  split_and!; [exact H0 | exact H1 | reflexivity |].
  apply (providers_own_distinct_runtimes Examples.emptyWorld
           [Mount Examples.apiLayer; Mount Examples.apiLayer;
            Deliver 1 Render; Deliver 0 Render; Deliver 0 CommitEffects] 0 1);
    [discriminate | exact H0 | exact H1].
Defined.

(** ** The example's own runtime *)

(** A runtime built against a memo table made for it alone always
    constructs its capability. *)
Lemma loadExampleRuntime_constructs (layer : Layer) (w : EffectWorld) :
  services (loadExampleRuntime layer w).1
  = {| builtFrom := layerId layer; serial := length (constructions w) |}
  /\ constructions (loadExampleRuntime layer w).2 = constructions w ++ [layerId layer].
Proof.
  unfold loadExampleRuntime, Layer.makeMemoMap, ManagedRuntime.make. cbn.
  rewrite list_lookup_middle by done. cbn. now rewrite lookup_empty.
Qed.

Lemma make_miss_serial (layer : Layer) (memoMap : nat) (w : EffectWorld)
    (table : gmap string Instance) :
  memoTables w !! memoMap = Some table ->
  table !! layerId layer = None ->
  serial (services (ManagedRuntime.make layer memoMap w).1) = length (constructions w).
Proof.
  intros Htable Hmiss. unfold ManagedRuntime.make. rewrite Htable. cbn. now rewrite Hmiss.
Qed.

Lemma builtAfter_step (memoMap base : nat) (w0 : EffectWorld) (p : Process) (e : ProcessEvent) :
  ProcessInvariant memoMap w0 p ->
  BuiltAfter memoMap base p ->
  BuiltAfter memoMap base (processStep memoMap p e).
Proof.
  intros (table & built & Htable & _) [Hbase Hserial].
  destruct e as [layer | i ev]; unfold processStep; [now split |].
  destruct (mounted p !! i) as [[layer f] |] eqn:Hi; [| now split].
  destruct (step layer memoMap (f, world p) ev) as [f' w'] eqn:Hstep.
  apply step_cases in Hstep as [(_ & Htabs & Hcons) | (_ & runtime & _ & Hmake)].
  - split; cbn; rewrite ?Htabs, ?Hcons; [exact Hbase | exact Hserial].
  - pose proof (make_cases layer memoMap (world p) table Htable) as Hcases.
    pose proof (make_miss_serial layer memoMap (world p) table Htable) as Hnew.
    rewrite Hmake in Hcases, Hnew. cbn in Hnew.
    destruct Hcases as [(_ & Htabs & Hcons) | (Hmiss & Htabs & Hcons)].
    + split; cbn; rewrite ?Htabs, ?Hcons; [exact Hbase | exact Hserial].
    + split; cbn; rewrite ?Htabs, ?Hcons.
      * rewrite length_app. lia.
      * intros table' k inst Htable' Hk.
        rewrite list_lookup_insert_eq in Htable' by (now apply lookup_lt_Some in Htable).
        injection Htable' as <-.
        destruct (decide (layerId layer = k)) as [<- | Hne].
        -- rewrite lookup_insert_eq in Hk. injection Hk as <-.
           rewrite (Hnew Hmiss). exact Hbase.
        -- rewrite lookup_insert_ne in Hk by done. exact (Hserial table k inst Htable Hk).
Qed.

Lemma builtAfter_reachable (w0 : EffectWorld) (evs : list ProcessEvent) :
  BuiltAfter (loadModule w0).1 (length (constructions w0)) (runProcess w0 evs).
Proof.
  unfold runProcess. pose proof (invariant_loaded w0) as Hinv.
  assert (Hinit : BuiltAfter (loadModule w0).1 (length (constructions w0))
                    {| world := (loadModule w0).2; mounted := [] |}).
  { split; [done |]. cbn. intros table k inst Htable Hk.
    rewrite list_lookup_middle in Htable by done. injection Htable as <-.
    now rewrite lookup_empty in Hk. }
  destruct (loadModule w0) as [memoMap w]. cbn [fst snd] in *.
  revert Hinv Hinit. generalize {| world := w; mounted := [] |}.
  induction evs as [| e evs IH]; intros p Hinv Hp; [exact Hp |].
  cbn [fold_left]. apply IH.
  - now apply invariant_step.
  - now apply (builtAfter_step memoMap _ w0).
Qed.

(** X9.  The example builds the runtime of its route loader against a
    memo map of its own, not the library module's.  So that runtime
    shares its capability instance with no provider, whatever the page
    does, and as soon as a provider of the same layer has rendered, the
    capability has been constructed twice. *)
Theorem example_runtime_is_not_shared
    (layer : Layer) (w0 : EffectWorld) (evs : list ProcessEvent) :
  let example := runExample layer w0 evs in
  (forall i runtime, providedRuntime example.2 i = Some runtime ->
                     services runtime <> services example.1)
  /\ exists built,
       constructions (world example.2) = constructions w0 ++ [layerId layer] ++ built
       /\ forall i runtime,
            providerLayer example.2 i = Some (layerId layer) ->
            providedRuntime example.2 i = Some runtime ->
            layerId layer ∈ built.
Proof.
  intros example. unfold example, runExample.
  destruct (loadExampleRuntime_constructs layer w0) as [Hservices Hcons].
  destruct (loadExampleRuntime layer w0) as [exampleRuntime w1]. cbn [fst snd] in Hservices, Hcons |- *.
  destruct (invariant_reachable w1 evs) as (table & built & Htable & Hbuilt & _ & Hdom & Hfibers).
  destruct (builtAfter_reachable w1 evs) as [_ Hserial].
  assert (Hrow : forall i runtime,
            providedRuntime (runProcess w1 evs) i = Some runtime ->
            exists layer', providerLayer (runProcess w1 evs) i = Some (layerId layer')
                           /\ table !! layerId layer' = Some (services runtime)).
  { intros i runtime Hi. unfold providedRuntime, providerLayer in *.
    destruct (mounted (runProcess w1 evs) !! i) as [[layer' f] |] eqn:Hrowi; [| discriminate].
    exists layer'. split; [done |]. exact (Hfibers i layer' f runtime Hrowi Hi). }
  split.
  - intros i runtime Hi Heq.
    destruct (Hrow i runtime Hi) as (layer' & _ & Hentry).
    pose proof (Hserial table _ _ Htable Hentry) as Hlate.
    rewrite Heq, Hservices, Hcons, length_app in Hlate. cbn in Hlate. lia.
  - exists built. split; [now rewrite Hbuilt, Hcons, <- app_assoc |].
    intros i runtime Hlayer Hi.
    destruct (Hrow i runtime Hi) as (layer' & Hlayer' & Hentry).
    rewrite Hlayer in Hlayer'. injection Hlayer' as Hsame.
    apply Hdom. rewrite Hsame. exact (mk_is_Some _ _ Hentry).
Qed.

(** ** The example page *)

(** X10.  Toggling a todo twice puts the cache entry back exactly as it
    was, whatever it held: an entry that was never fetched stays
    undefined, and a list comes back with every todo unchanged. *)
Theorem onToggle_involutive (todoId : Z) (cached : option (list StartApp.Todo)) :
  StartApp.onToggle todoId (StartApp.onToggle todoId cached) = cached.
Proof.
  destruct cached as [old |]; [| reflexivity].
  unfold StartApp.onToggle, StartApp.setQueryData. cbn. f_equal.
  rewrite List.map_map. rewrite <- (List.map_id old) at 2.
  apply List.map_ext. intros [i u t c]. cbn.
  destruct (Z.eqb i todoId) eqn:Hid; cbn; [| now rewrite Hid].
  now rewrite Hid, negb_involutive.
Qed.

(** X11.  Toggling changes nothing but the [completed] flag, and that
    only of the todos carrying the given id: the list keeps its length
    and order, every todo keeps its id, user and title, and its flag is
    negated exactly when its id is the given one. *)
Theorem onToggle_frame (todoId : Z) (old : list StartApp.Todo) :
  exists new,
    StartApp.onToggle todoId (Some old) = Some new
    /\ List.map StartApp.id new = List.map StartApp.id old
    /\ List.map StartApp.userId new = List.map StartApp.userId old
    /\ List.map StartApp.title new = List.map StartApp.title old
    /\ List.map StartApp.completed new
       = List.map (fun todo => xorb (StartApp.completed todo) (Z.eqb (StartApp.id todo) todoId))
           old.
Proof.
  eexists. split; [reflexivity |].
  split_and!; rewrite List.map_map; apply List.map_ext; intros [i u t c]; cbn;
    destruct (Z.eqb i todoId); cbn; try reflexivity; now destruct c.
Qed.

(** X12.  Deleting removes every todo with the given id and nothing
    else: a todo is in the new list exactly when it was in the old one
    under another id.  Deleting again changes nothing, and an entry that
    was never fetched stays undefined. *)
Theorem onDelete_removes_exactly (todoId : Z) :
  StartApp.onDelete todoId None = None
  /\ (forall old, exists new,
        StartApp.onDelete todoId (Some old) = Some new
        /\ forall todo, In todo new <-> In todo old /\ StartApp.id todo <> todoId)
  /\ (forall cached,
        StartApp.onDelete todoId (StartApp.onDelete todoId cached)
        = StartApp.onDelete todoId cached).
Proof.
  split_and!.
  - reflexivity.
  - intros old. eexists. split; [reflexivity |].
    intros todo. rewrite List.filter_In, negb_true_iff, Z.eqb_neq. reflexivity.
  - intros [old |]; [| reflexivity].
    unfold StartApp.onDelete, StartApp.setQueryData. cbn. f_equal.
    induction old as [| todo old IH]; [reflexivity |]. cbn.
    destruct (negb (Z.eqb (StartApp.id todo) todoId)) eqn:Hkeep; cbn.
    + now rewrite Hkeep, IH.
    + exact IH.
Qed.

(** X13.  A toggle and a delete commute, for the same id as for two
    different ones: the cache entry ends up the same in either order. *)
Theorem onDelete_onToggle_commute (deleted toggled : Z) (cached : option (list StartApp.Todo)) :
  StartApp.onDelete deleted (StartApp.onToggle toggled cached)
  = StartApp.onToggle toggled (StartApp.onDelete deleted cached).
Proof.
  destruct cached as [old |]; [| reflexivity].
  unfold StartApp.onDelete, StartApp.onToggle, StartApp.setQueryData. cbn. f_equal.
  induction old as [| [i u t c] old IH]; [reflexivity |]. cbn.
  destruct (Z.eqb i toggled) eqn:Htoggled; cbn;
    destruct (negb (Z.eqb i deleted)) eqn:Hdeleted; cbn;
    rewrite ?Htoggled; now rewrite IH.
Qed.

(** X14.  A failed query is rendered as an empty list.  When the
    suspense read throws anything but a promise and the page has a
    query client, [App] does not throw: the left-hand cause is dropped
    for [[]], so the header shows 0 of 0 completed and the list shows
    the message of an empty list, the same page as for a query that
    succeeded with no todos.  Without a query client [App] throws what
    [useQueryClient] throws, whatever the suspense read did short of
    throwing a promise. *)
Theorem App_renders_failure_as_empty `{L : EffectLib} `{Q : !QueryLib}
    (toLowerCase : string -> string) (data : UseSuspenseQueryResult -> list StartApp.Todo)
    {QueryClient : Type} (useQueryClient : Completion QueryClient)
    (runtime : ManagedRuntime) (outer : list (option ManagedRuntime))
    (todosQueryOptions : QueryOptions.t) (searchQuery : string) (e : JsVal) :
  _useSuspenseQuery (toQueryOptions todosQueryOptions runtime (Some true)) = Throw e ->
  instanceofPromise e = false ->
  let page :=
    StartApp.App toLowerCase data useQueryClient (Some runtime :: outer) todosQueryOptions
      searchQuery in
  (forall queryClient,
     useQueryClient = Normal queryClient ->
     page = Normal
              {| StartApp.completedCount := 0;
                 StartApp.totalCount := 0;
                 StartApp.filteredTodos := [];
                 StartApp.emptyMessage :=
                   Some (if String.eqb searchQuery "" then "No todos yet"
                         else "No todos found") |})
  /\ (forall thrown, useQueryClient = Throw thrown -> page = Throw thrown).
Proof.
  intros Hread Hpromise page. unfold page, StartApp.App.
  rewrite useSuspenseQuery_provider, Hread, Hpromise.
  split; intros ? ->; reflexivity.
Qed.

(** The spec's scenario on the page: the effect fails with
    [NotFoundError] and the page shows "No todos yet". *)
Lemma App_renders_failure_as_empty_witness :
  @StartApp.App Sim.lib (Examples.cacheLib (Examples.fetchContext None))
    StartAppExamples.toLowerCase (fun _ => StartAppExamples.todos)
    unit (Normal tt)
    [Some Examples.runtime0]
    (Examples.query (Sim.failWith (VStr "NotFoundError")) None None) ""
  = Normal
      {| StartApp.completedCount := 0;
         StartApp.totalCount := 0;
         StartApp.filteredTodos := [];
         StartApp.emptyMessage := Some "No todos yet" |}.
Proof.
  destruct (@App_renders_failure_as_empty Sim.lib (Examples.cacheLib (Examples.fetchContext None))
              StartAppExamples.toLowerCase (fun _ => StartAppExamples.todos)
              unit (Normal tt)
              Examples.runtime0 []
              (Examples.query (Sim.failWith (VStr "NotFoundError")) None None) ""
              (VCause (CauseFail (VStr "NotFoundError"))) eq_refl eq_refl) as [Hpage _].
  exact (Hpage tt eq_refl).
Defined.

(** Every string includes the empty string. *)
Lemma includes_empty (s : string) : StartApp.includes s "" = true.
Proof. now destruct s. Qed.

Lemma filter_all {A : Type} (keep : A -> bool) (l : list A) :
  (forall x, keep x = true) -> List.filter keep l = l.
Proof.
  intros Hkeep. induction l as [| x l IH]; [reflexivity |].
  cbn. now rewrite Hkeep, IH.
Qed.

(** X15.  With an empty search box the page lists every todo, in order,
    whatever their titles; the message of an empty list appears only
    when there are no todos at all.  (That lower-casing the empty
    string gives the empty string is all that is asked of
    [toLowerCase].) *)
Theorem view_empty_search_lists_all
    (toLowerCase : string -> string) (todos : list StartApp.Todo) :
  toLowerCase "" = "" ->
  StartApp.filteredTodos (StartApp.view toLowerCase todos "") = todos
  /\ StartApp.totalCount (StartApp.view toLowerCase todos "") = length todos
  /\ (StartApp.emptyMessage (StartApp.view toLowerCase todos "") = None <-> todos <> []).
Proof.
  intros Hlower.
  assert (Hall : List.filter
                   (fun todo => StartApp.includes (toLowerCase (StartApp.title todo))
                                  (toLowerCase ""))
                   todos = todos).
  { apply filter_all. intros todo. rewrite Hlower. apply includes_empty. }
  unfold StartApp.view. cbn. rewrite Hall. split_and!; try reflexivity.
  destruct todos; split; try done.
Qed.

Lemma view_empty_search_lists_all_witness :
  StartApp.filteredTodos (StartApp.view StartAppExamples.toLowerCase StartAppExamples.todos "")
  = StartAppExamples.todos
  /\ StartApp.totalCount (StartApp.view StartAppExamples.toLowerCase StartAppExamples.todos "") = 2
  /\ (StartApp.emptyMessage
        (StartApp.view StartAppExamples.toLowerCase StartAppExamples.todos "") = None
      <-> StartAppExamples.todos <> []).
Proof.
  exact (view_empty_search_lists_all StartAppExamples.toLowerCase StartAppExamples.todos eq_refl).
Defined.
